(** * steps-cache-pull: the cache-pull pipeline of [main.go]

    A shallow embedding of [main.go] (package [main]) and of the pieces of
    the Go standard library it relies on ([strings], [path/filepath],
    [unicode/utf8], [encoding/json], [net/http] as far as the program
    observes them), followed by the properties of the pipeline.

    Go strings and byte slices are Rocq [string]s (sequences of bytes);
    runes and integers are [Z]. *)

From Stdlib Require Import ZArith NArith List String Ascii Bool Lia.
From Stdlib Require Import DecimalString.
Import ListNotations.

Set Warnings "-register-all".

Open Scope string_scope.
Open Scope Z_scope.

(* ================================================================= *)
(** ** Bytes and strings *)

Definition byte_of (c : ascii) : Z := Z.of_N (N_of_ascii c).
Definition chr (z : Z) : ascii := ascii_of_N (Z.to_N z).

(** [s[n:]] *)
Fixpoint drop (n : nat) (s : string) : string :=
  match n, s with
  | O, _ => s
  | S _, EmptyString => EmptyString
  | S k, String _ t => drop k t
  end.

(** [s[:n]] *)
Fixpoint take (n : nat) (s : string) : string :=
  match n, s with
  | O, _ => EmptyString
  | S _, EmptyString => EmptyString
  | S k, String c t => String c (take k t)
  end.

Definition str_of_bytes (l : list Z) : string :=
  string_of_list_ascii (map chr l).

(** The double quote, which a string literal cannot hold directly. *)
Definition dquote : ascii := chr 34.
Definition backslash : ascii := chr 92.
Definition quoted (s : string) : string :=
  String dquote (s ++ String dquote EmptyString).

(* ================================================================= *)
(** ** [unicode/utf8] *)

Module utf8.

Definition RuneError : Z := 0xFFFD.
Definition RuneSelf : Z := 0x80.
Definition MaxRune : Z := 0x10FFFF.
Definition UTFMax : nat := 4.

Definition locb : Z := 0x80.
Definition hicb : Z := 0xBF.
Definition maskx : Z := 0x3F.
Definition mask2 : Z := 0x1F.
Definition mask3 : Z := 0x0F.
Definition mask4 : Z := 0x07.

(** The [first] table joined with [acceptRanges]: for a leading byte,
    the length of the sequence and the accepted range of its second
    byte; [None] is the entry [xx] (and the ASCII entries, which the
    callers treat before the lookup). *)
Definition first (b : Z) : option (nat * Z * Z) :=
  if b <? 0xC2 then None
  else if b <=? 0xDF then Some (2%nat, locb, hicb)
  else if b =? 0xE0 then Some (3%nat, 0xA0, hicb)
  else if b <=? 0xEC then Some (3%nat, locb, hicb)
  else if b =? 0xED then Some (3%nat, locb, 0x9F)
  else if b <=? 0xEF then Some (3%nat, locb, hicb)
  else if b =? 0xF0 then Some (4%nat, 0x90, hicb)
  else if b <=? 0xF3 then Some (4%nat, locb, hicb)
  else if b =? 0xF4 then Some (4%nat, locb, 0x8F)
  else None.

Definition outside (lo hi b : Z) : bool := (b <? lo) || (hi <? b).

(** [utf8.DecodeRuneInString] (and [utf8.DecodeRune]). *)
Definition DecodeRuneInString (s : string) : Z * nat :=
  match s with
  | EmptyString => (RuneError, 0%nat)
  | String c0 t =>
    let s0 := byte_of c0 in
    if s0 <? RuneSelf then (s0, 1%nat) else
    match first s0 with
    | None => (RuneError, 1%nat)
    | Some (sz, lo, hi) =>
      if (String.length s <? sz)%nat then (RuneError, 1%nat) else
      match t with
      | EmptyString => (RuneError, 1%nat)
      | String c1 t1 =>
        let s1 := byte_of c1 in
        if outside lo hi s1 then (RuneError, 1%nat) else
        if (sz <=? 2)%nat
        then (Z.lor (Z.shiftl (Z.land s0 mask2) 6) (Z.land s1 maskx), 2%nat)
        else
        match t1 with
        | EmptyString => (RuneError, 1%nat)
        | String c2 t2 =>
          let s2 := byte_of c2 in
          if outside locb hicb s2 then (RuneError, 1%nat) else
          if (sz <=? 3)%nat
          then (Z.lor (Z.lor (Z.shiftl (Z.land s0 mask3) 12)
                             (Z.shiftl (Z.land s1 maskx) 6))
                      (Z.land s2 maskx), 3%nat)
          else
          match t2 with
          | EmptyString => (RuneError, 1%nat)
          | String c3 _ =>
            let s3 := byte_of c3 in
            if outside locb hicb s3 then (RuneError, 1%nat) else
            (Z.lor (Z.lor (Z.lor (Z.shiftl (Z.land s0 mask4) 18)
                                 (Z.shiftl (Z.land s1 maskx) 12))
                          (Z.shiftl (Z.land s2 maskx) 6))
                   (Z.land s3 maskx), 4%nat)
          end
        end
      end
    end
  end.

(** [utf8.RuneStart] *)
Definition RuneStart (b : Z) : bool := negb (Z.land b 0xC0 =? 0x80).

(** The backwards search of [DecodeLastRuneInString]: from [start],
    at most [n] further positions down to [lim], for a byte that can
    start a rune.  The result is the value of [start] after the loop
    ([lim - 1] when the loop ran out). *)
Fixpoint back_to_start (s : string) (lim : Z) (n : nat) (start : Z) : Z :=
  match n with
  | O => start
  | S k =>
    if start <? lim then start
    else match String.get (Z.to_nat start) s with
         | Some c => if RuneStart (byte_of c) then start
                     else back_to_start s lim k (start - 1)
         | None => start
         end
  end.

(** [utf8.DecodeLastRuneInString] *)
Definition DecodeLastRuneInString (s : string) : Z * nat :=
  let end_ := Z.of_nat (String.length s) in
  if end_ =? 0 then (RuneError, 0%nat) else
  let start := end_ - 1 in
  match String.get (Z.to_nat start) s with
  | None => (RuneError, 0%nat)
  | Some c =>
    let r := byte_of c in
    if r <? RuneSelf then (r, 1%nat) else
    let lim := Z.max 0 (end_ - Z.of_nat UTFMax) in
    let start := back_to_start s lim UTFMax (start - 1) in
    let start := Z.max 0 start in
    let '(r, size) := DecodeRuneInString (drop (Z.to_nat start) s) in
    if start + Z.of_nat size =? end_ then (r, size) else (RuneError, 1%nat)
  end.

(** [utf8.EncodeRune], as the bytes it writes. *)
Definition EncodeRune (r : Z) : string :=
  let three (r : Z) :=
    str_of_bytes [Z.lor 0xE0 (Z.shiftr r 12);
                  Z.lor 0x80 (Z.land (Z.shiftr r 6) maskx);
                  Z.lor 0x80 (Z.land r maskx)] in
  if (0 <=? r) && (r <=? 0x7F) then str_of_bytes [r]
  else if (0 <=? r) && (r <=? 0x7FF) then
    str_of_bytes [Z.lor 0xC0 (Z.shiftr r 6); Z.lor 0x80 (Z.land r maskx)]
  else if (r <? 0) || (MaxRune <? r) || ((0xD800 <=? r) && (r <=? 0xDFFF))
  then three RuneError
  else if r <=? 0xFFFF then three r
  else
    str_of_bytes [Z.lor 0xF0 (Z.shiftr r 18);
                  Z.lor 0x80 (Z.land (Z.shiftr r 12) maskx);
                  Z.lor 0x80 (Z.land (Z.shiftr r 6) maskx);
                  Z.lor 0x80 (Z.land r maskx)].

End utf8.

(* ================================================================= *)
(** ** [unicode] *)

Module unicode.

Definition ReplacementChar : Z := 0xFFFD.

(** [unicode.IsSpace]: the Latin-1 switch, then the [White_Space]
    table above Latin-1. *)
Definition IsSpace (r : Z) : bool :=
  if (0 <=? r) && (r <=? 0xFF) then
    (r =? 9) || (r =? 10) || (r =? 11) || (r =? 12) || (r =? 13) ||
    (r =? 32) || (r =? 0x85) || (r =? 0xA0)
  else
    (r =? 0x1680) || ((0x2000 <=? r) && (r <=? 0x200A)) ||
    (r =? 0x2028) || (r =? 0x2029) || (r =? 0x202F) ||
    (r =? 0x205F) || (r =? 0x3000).

End unicode.

(* ================================================================= *)
(** ** [strings] *)

Module strings.

(** [strings.HasPrefix] *)
Definition HasPrefix (s prefix : string) : bool := String.prefix prefix s.

(** [strings.TrimPrefix] *)
Definition TrimPrefix (s prefix : string) : string :=
  if HasPrefix s prefix then drop (String.length prefix) s else s.

(** [strings.TrimLeftFunc s unicode.IsSpace]: the rest of [s] from its
    first rune that is not a space; invalid bytes decode to
    [RuneError] of width 1, as in a [range] loop. *)
Fixpoint TrimLeftSpace (s : string) : string :=
  match s with
  | EmptyString => EmptyString
  | String _ t =>
    let '(r, size) := utf8.DecodeRuneInString s in
    if unicode.IsSpace r then
      match size, t with
      | 2%nat, String _ t2 => TrimLeftSpace t2
      | 3%nat, String _ (String _ t3) => TrimLeftSpace t3
      | 4%nat, String _ (String _ (String _ t4)) => TrimLeftSpace t4
      | _, _ => TrimLeftSpace t
      end
    else s
  end.

(** [lastIndexFunc s unicode.IsSpace false]: the index of the last rune
    of [s[0:i]] that is not a space, or [-1]. *)
Fixpoint lastIndexNotSpace (fuel : nat) (s : string) (i : Z) : Z :=
  match fuel with
  | O => -1
  | S k =>
    if i <=? 0 then -1 else
    let '(r, size) := utf8.DecodeLastRuneInString (take (Z.to_nat i) s) in
    let i := i - Z.of_nat size in
    if negb (unicode.IsSpace r) then i
    else lastIndexNotSpace k s i
  end.

(** [strings.TrimRightFunc s unicode.IsSpace] *)
Definition TrimRightSpace (s : string) : string :=
  let n := String.length s in
  let i := lastIndexNotSpace n s (Z.of_nat n) in
  let i :=
    if (0 <=? i) &&
       match String.get (Z.to_nat i) s with
       | Some c => utf8.RuneSelf <=? byte_of c
       | None => false
       end
    then i + Z.of_nat (snd (utf8.DecodeRuneInString (drop (Z.to_nat i) s)))
    else i + 1 in
  take (Z.to_nat i) s.

(** [strings.TrimSpace] *)
Definition TrimSpace (s : string) : string :=
  TrimRightSpace (TrimLeftSpace s).

End strings.

(* ================================================================= *)
(** ** [path/filepath] (Unix: the separator is the slash) *)

Module filepath.

Definition Separator : ascii := "/"%char.
Definition IsPathSeparator (c : ascii) : bool := Ascii.eqb c Separator.

Fixpoint drop_seps (l : list ascii) : list ascii :=
  match l with
  | c :: t => if IsPathSeparator c then drop_seps t else l
  | [] => []
  end.

Fixpoint until_sep (l : list ascii) : list ascii :=
  match l with
  | c :: t => if IsPathSeparator c then [] else c :: until_sep t
  | [] => []
  end.

(** [filepath.Base]: both loops of the source run from the end of the
    path, so they are written over the reversed path. *)
Definition Base (path : string) : string :=
  if String.eqb path "" then "." else
  let stripped := drop_seps (rev (list_ascii_of_string path)) in
  let last := string_of_list_ascii (rev (until_sep stripped)) in
  if String.eqb last "" then String Separator EmptyString else last.

End filepath.

(* ================================================================= *)
(** ** Errors

    A Go [error] is kept as the call that built it, so that no message
    text has to be invented: the errors of [encoding/json], those built
    by [errors.New] and [fmt.Errorf], and those handed back by the
    operating system, the network and the functions of the package that
    live outside [main.go]. *)

Inductive arg (E : Type) : Type :=
| AStr (s : string)
| AInt (n : Z)
| AErr (e : E).
Arguments AStr {E} s.
Arguments AInt {E} n.
Arguments AErr {E} e.

Inductive error : Type :=
| SyntaxError                               (* *json.SyntaxError *)
| UnmarshalTypeError (Value : string)       (* *json.UnmarshalTypeError *)
| New (text : string)                       (* errors.New *)
| Errorf (format : string) (args : list (arg error))  (* fmt.Errorf *)
| Foreign (text : string).

Inductive result (A : Type) : Type :=
| Ok (a : A)
| Err (e : error).
Arguments Ok {A} a.
Arguments Err {A} e.

(* ================================================================= *)
(** ** [encoding/json]: the scanner, [unquote], and [Unmarshal] into a
       struct with one string field *)

Module json.

Inductive Value : Type :=
| Null
| Bool (b : bool)
| Number (lit : string)
| Str (s : string)
| Array (l : list Value)
| Object (m : list (string * Value)).

(** Outcome of a parser: a value and the unread input, a syntax
    error, or recursion budget used up. *)
Inductive res (A : Type) : Type :=
| Parsed (a : A) (rest : string)
| Invalid
| Fuel.
Arguments Parsed {A} a rest.
Arguments Invalid {A}.
Arguments Fuel {A}.

Local Open Scope char_scope.

(** [isSpace] of the scanner *)
Definition isSpace (c : ascii) : bool :=
  (c =? " ") || (c =? chr 9) || (c =? chr 13) || (c =? chr 10).

Fixpoint skip_space (s : string) : string :=
  match s with
  | String c t => if isSpace c then skip_space t else s
  | EmptyString => s
  end.

Definition isDigit (c : ascii) : bool :=
  (48 <=? byte_of c)%Z && (byte_of c <=? 57)%Z.

(** Value of a hexadecimal digit, as in [getu4]. *)
Definition hexval (c : ascii) : option Z :=
  let b := byte_of c in
  if (48 <=? b)%Z && (b <=? 57)%Z then Some (b - 48)%Z
  else if (97 <=? b)%Z && (b <=? 102)%Z then Some (b - 97 + 10)%Z
  else if (65 <=? b)%Z && (b <=? 70)%Z then Some (b - 65 + 10)%Z
  else None.

Definition isHex (c : ascii) : bool :=
  match hexval c with Some _ => true | None => false end.

(** [getu4] on the four digits that follow a backslash and [u]. *)
Definition getu4 (h1 h2 h3 h4 : ascii) : Z :=
  match hexval h1, hexval h2, hexval h3, hexval h4 with
  | Some a, Some b, Some c, Some d => (((a * 16 + b) * 16 + c) * 16 + d)%Z
  | _, _, _, _ => (-1)%Z
  end.

(** The scanner inside a string ([stateInString], [stateInStringEsc],
    [stateInStringEscU...]): the bytes up to the closing quote and the
    input after it. *)
Fixpoint scan_string (s : string) : option (string * string) :=
  match s with
  | EmptyString => None
  | String c t =>
    if c =? dquote then Some (EmptyString, t)
    else if c =? backslash then
      match t with
      | String e t' =>
        if (e =? "b") || (e =? "f") || (e =? "n") || (e =? "r") ||
           (e =? "t") || (e =? backslash) || (e =? "/") || (e =? dquote)
        then match scan_string t' with
             | Some (raw, rest) => Some (String c (String e raw), rest)
             | None => None
             end
        else if e =? "u" then
          match t' with
          | String h1 (String h2 (String h3 (String h4 t4))) =>
            if isHex h1 && isHex h2 && isHex h3 && isHex h4 then
              match scan_string t4 with
              | Some (raw, rest) =>
                Some (String c (String e (String h1 (String h2
                        (String h3 (String h4 raw))))), rest)
              | None => None
              end
            else None
          | _ => None
          end
        else None
      | EmptyString => None
      end
    else if (byte_of c <? 32)%Z then None
    else match scan_string t with
         | Some (raw, rest) => Some (String c raw, rest)
         | None => None
         end
  end.

(** [utf16.IsSurrogate] and [utf16.DecodeRune] *)
Definition IsSurrogate (r : Z) : bool := ((0xD800 <=? r) && (r <? 0xE000))%Z.

Definition utf16_DecodeRune (r1 r2 : Z) : Z :=
  if ((0xD800 <=? r1) && (r1 <? 0xDC00) && (0xDC00 <=? r2) && (r2 <? 0xE000))%Z
  then (Z.lor (Z.shiftl (r1 - 0xD800) 10) (r2 - 0xDC00) + 0x10000)%Z
  else unicode.ReplacementChar.

(** [unquoteBytes] on the bytes between the quotes; [None] is its
    [ok = false]. *)
Fixpoint unquote (s : string) : option string :=
  let cons (p : string) (o : option string) :=
    match o with Some r => Some (p ++ r)%string | None => None end in
  match s with
  | EmptyString => Some EmptyString
  | String c t =>
    if c =? backslash then
      match t with
      | EmptyString => None
      | String e t' =>
        if (e =? dquote) || (e =? backslash) || (e =? "/") || (e =? "'")
        then cons (String e EmptyString) (unquote t')
        else if e =? "b" then cons (String (chr 8) EmptyString) (unquote t')
        else if e =? "f" then cons (String (chr 12) EmptyString) (unquote t')
        else if e =? "n" then cons (String (chr 10) EmptyString) (unquote t')
        else if e =? "r" then cons (String (chr 13) EmptyString) (unquote t')
        else if e =? "t" then cons (String (chr 9) EmptyString) (unquote t')
        else if e =? "u" then
          match t' with
          | String h1 (String h2 (String h3 (String h4 t4))) =>
            let rr := getu4 h1 h2 h3 h4 in
            if (rr <? 0)%Z then None
            else if IsSurrogate rr then
              match t4 with
              | String b (String u (String g1 (String g2 (String g3
                  (String g4 t10))))) =>
                let rr1 := if (b =? backslash) && (u =? "u")
                           then getu4 g1 g2 g3 g4 else (-1)%Z in
                let dec := utf16_DecodeRune rr rr1 in
                if negb (dec =? unicode.ReplacementChar)%Z
                then cons (utf8.EncodeRune dec) (unquote t10)
                else cons (utf8.EncodeRune unicode.ReplacementChar)
                          (unquote t4)
              | _ => cons (utf8.EncodeRune unicode.ReplacementChar)
                          (unquote t4)
              end
            else cons (utf8.EncodeRune rr) (unquote t4)
          | _ => None
          end
        else None
      end
    else if (c =? dquote) || (byte_of c <? 32)%Z then None
    else if (byte_of c <? utf8.RuneSelf)%Z
    then cons (String c EmptyString) (unquote t)
    else
      let '(rr, size) := utf8.DecodeRuneInString s in
      cons (utf8.EncodeRune rr)
           match size, t with
           | 2%nat, String _ t2 => unquote t2
           | 3%nat, String _ (String _ t3) => unquote t3
           | 4%nat, String _ (String _ (String _ t4)) => unquote t4
           | _, _ => unquote t
           end
  end.

(** The scanner inside a number ([stateNeg], [state0], [state1],
    [stateDot], [stateDot0], [stateE], [stateESign], [stateE0]): the
    input after the number. *)
Fixpoint digits (s : string) : string :=
  match s with
  | String c t => if isDigit c then digits t else s
  | EmptyString => s
  end.

Definition scan_exp (s : string) : option string :=
  match s with
  | String e t =>
    if (e =? "e") || (e =? "E") then
      let t := match t with
               | String sg t' => if (sg =? "+") || (sg =? "-") then t' else t
               | EmptyString => t
               end in
      match t with
      | String d r => if isDigit d then Some (digits r) else None
      | EmptyString => None
      end
    else Some s
  | EmptyString => Some s
  end.

Definition scan_frac (s : string) : option string :=
  match s with
  | String p t =>
    if p =? "." then
      match t with
      | String d r => if isDigit d then scan_exp (digits r) else None
      | EmptyString => None
      end
    else scan_exp s
  | EmptyString => Some s
  end.

Definition scan_number (s : string) : option string :=
  let s := match s with
           | String m t => if m =? "-" then t else s
           | EmptyString => s
           end in
  match s with
  | String d t =>
    if d =? "0" then scan_frac t
    else if isDigit d then scan_frac (digits t)
    else None
  | EmptyString => None
  end.

Definition mk_string (raw rest : string) : res Value :=
  match unquote raw with
  | Some s => Parsed (Str s) rest
  | None => Invalid
  end.

(** One JSON value ([stateBeginValue] ... [stateEndValue]); arrays and
    objects recurse through [elements] and [members]. *)
Fixpoint value (fuel : nat) (s : string) : res Value :=
  match fuel with
  | O => Fuel
  | S f =>
    match skip_space s with
    | EmptyString => Invalid
    | String c t =>
      if c =? "{" then
        match skip_space t with
        | String c' r => if c' =? "}" then Parsed (Object []) r
                         else members f t []
        | EmptyString => Invalid
        end
      else if c =? "[" then
        match skip_space t with
        | String c' r => if c' =? "]" then Parsed (Array []) r
                         else elements f t []
        | EmptyString => Invalid
        end
      else if c =? dquote then
        match scan_string t with
        | Some (raw, rest) => mk_string raw rest
        | None => Invalid
        end
      else if (c =? "-") || isDigit c then
        match scan_number (String c t) with
        | Some rest =>
          Parsed (Number (take (String.length (String c t) - String.length rest)
                               (String c t))) rest
        | None => Invalid
        end
      else if String.prefix "true" (String c t) then Parsed (Bool true) (drop 4 (String c t))
      else if String.prefix "false" (String c t) then Parsed (Bool false) (drop 5 (String c t))
      else if String.prefix "null" (String c t) then Parsed Null (drop 4 (String c t))
      else Invalid
    end
  end
with elements (fuel : nat) (s : string) (acc : list Value) : res Value :=
  match fuel with
  | O => Fuel
  | S f =>
    match value f s with
    | Parsed v r =>
      match skip_space r with
      | String c r' =>
        if c =? "," then elements f r' (v :: acc)
        else if c =? "]" then Parsed (Array (rev (v :: acc))) r'
        else Invalid
      | EmptyString => Invalid
      end
    | Invalid => Invalid
    | Fuel => Fuel
    end
  end
with members (fuel : nat) (s : string) (acc : list (string * Value)) : res Value :=
  match fuel with
  | O => Fuel
  | S f =>
    match skip_space s with
    | EmptyString => Invalid
    | String q t =>
      if q =? dquote then
        match scan_string t with
        | None => Invalid
        | Some (raw, r) =>
          match unquote raw with
          | None => Invalid
          | Some key =>
            match skip_space r with
            | EmptyString => Invalid
            | String c r1 =>
              if c =? ":" then
                match value f r1 with
                | Parsed v r2 =>
                  match skip_space r2 with
                  | String c' r3 =>
                    if c' =? "," then members f r3 ((key, v) :: acc)
                    else if c' =? "}" then
                      Parsed (Object (rev ((key, v) :: acc))) r3
                    else Invalid
                  | EmptyString => Invalid
                  end
                | Invalid => Invalid
                | Fuel => Fuel
                end
              else Invalid
            end
          end
        end
      else Invalid
    end
  end.

(** Recursion budget that suffices for an input (see
    [value_enough_fuel]).  The scanner is modelled without a bound on
    nesting; the releases of Go that have one reject values nested
    deeper than 10000. *)
Definition budget (data : string) : nat := 2 * String.length data + 2.

(** The whole input as one JSON text: a value, then only space
    ([stateEndTop]).  [None] is the [*SyntaxError] of [checkValid]. *)
Definition parse (data : string) : option Value :=
  match value (budget data) data with
  | Parsed v rest =>
    match skip_space rest with
    | EmptyString => Some v
    | String _ _ => None
    end
  | Invalid => None
  | Fuel => None
  end.

(** [json.Valid] *)
Definition Valid (data : string) : bool :=
  match parse data with Some _ => true | None => false end.

(** [equalFoldRight name key] for an ASCII field name: ASCII letters
    compare without case, and in the key the Kelvin sign stands for
    [k] and the long s for [s]. *)
Definition caseMask : Z := 0xDF.
Definition kelvin : Z := 0x212A.
Definition smallLongEss : Z := 0x17F.

Fixpoint equalFold (name key : string) : bool :=
  match name with
  | EmptyString => match key with EmptyString => true | _ => false end
  | String sc name' =>
    match key with
    | EmptyString => false
    | String tc key' =>
      let sb := byte_of sc in
      let tb := byte_of tc in
      if (tb <? utf8.RuneSelf)%Z then
        if (sb =? tb)%Z then equalFold name' key'
        else
          let sbUpper := Z.land sb caseMask in
          if (65 <=? sbUpper)%Z && (sbUpper <=? 90)%Z
          then if (sbUpper =? Z.land tb caseMask)%Z
               then equalFold name' key' else false
          else false
      else
        let '(tr, size) := utf8.DecodeRuneInString key in
        if ((sc =? "s") || (sc =? "S")) && (tr =? smallLongEss)%Z
        then equalFold name' (drop size key)
        else if ((sc =? "k") || (sc =? "K")) && (tr =? kelvin)%Z
        then equalFold name' (drop size key)
        else false
    end
  end.

(** The field that a key selects, for a struct whose only field has
    the JSON name [name]: the exact name, or else a name equal under
    folding. *)
Definition selects (name key : string) : bool :=
  String.eqb name key || equalFold name key.

Definition kind (v : Value) : string :=
  match v with
  | Null => "null"
  | Bool _ => "bool"
  | Number _ => "number"
  | Str _ => "string"
  | Array _ => "array"
  | Object _ => "object"
  end%string.

(** [saveError]: the first error is kept. *)
Definition saveError (saved : option error) (e : error) : option error :=
  match saved with Some _ => saved | None => Some e end.

(** [d.object] on a struct with one string field [name]: the members
    in order; a string is stored, [null] leaves the field alone, any
    other value is a saved type error; other keys are skipped. *)
Fixpoint object (name : string) (m : list (string * Value))
         (field : string) (saved : option error) : string * option error :=
  match m with
  | [] => (field, saved)
  | (key, v) :: m' =>
    if selects name key then
      match v with
      | Str s => object name m' s saved
      | Null => object name m' field saved
      | _ => object name m' field (saveError saved (UnmarshalTypeError (kind v)))
      end
    else object name m' field saved
  end.

(** [d.value] with such a struct as the target. *)
Definition decode (name : string) (v : Value) (field : string)
  : string * option error :=
  match v with
  | Null => (field, None)
  | Object m => object name m field None
  | _ => (field, Some (UnmarshalTypeError (kind v)))
  end.

(** [json.Unmarshal data &v] where [v] is a struct whose only field is
    a string with JSON name [name], holding [field] before the call:
    the field afterwards and the returned error. *)
Definition Unmarshal (data : string) (name : string) (field : string)
  : string * option error :=
  match parse data with
  | None => (field, Some SyntaxError)
  | Some v => decode name v field
  end.

End json.

(* ================================================================= *)
(** ** The run: configuration, environment, observable events *)

(** [Config] stores the step inputs. *)
Record Config : Type := {
  CacheAPIURL : string;
  DebugMode : bool;
  StackID : string
}.

(** What [ioutil.ReadAll] and [Close] will give on the body of a
    response. *)
Record Response : Type := {
  StatusCode : Z;
  BodyRead : string * option error;
  BodyClose : option error
}.

(** The environment of one run: what the operating system, the network
    and the functions of the package that are defined outside [main.go]
    ([readFirstEntry], [extractCacheArchive], [uncompressArchive]) answer.
    [None] for an [option error] is Go's [nil]. *)
Record World : Type := {
  (** [stepconf.Parse(&conf)]: the text of its error, or the inputs *)
  stepconf_Parse : string + Config;
  (** [time.Since(startTime).String()] at the end of the run *)
  elapsed : string;
  (** [os.Open] *)
  fs_Open : string -> option error;
  (** [os.Create] *)
  fs_Create : string -> option error;
  (** the URL parsing of [http.NewRequest] *)
  http_NewRequest : string -> option error;
  (** the answer of the network to the [n]-th request of the run *)
  roundTrip : nat -> string -> result Response;
  (** [readFirstEntry(cacheRecorderReader)]: the name in the header of
      the first entry *)
  firstEntry : result string;
  (** [ioutil.ReadAll(r)] on the payload reader of the first entry *)
  entryPayload : string * option error;
  (** [extractCacheArchive(cacheRecorderReader)] *)
  streamExtract : option error;
  (** [io.Copy(f, resp.Body)] on the body of the [n]-th response *)
  copyBody : nat -> option error;
  (** [uncompressArchive(pth)] *)
  tarExtract : string -> option error
}.

Inductive Level : Type := LError | LWarn | LInfo | LDone | LPrint.

(** Handles that must be closed: the file of [os.Open], the body of the
    response to the [n]-th request, the file of [os.Create]. *)
Inductive Handle : Type :=
| OpenedFile (pth : string)
| Body (n : nat)
| CreatedFile (pth : string).

(** What a run does, in order. *)
Inductive Event : Type :=
| EvLog (lvl : Level) (format : string) (args : list (arg error))
| EvPrintln
| EvPrintConf (conf : Config)
| EvSetEnableDebugLog (b : bool)
| EvRequest (n : nat) (timeout : Z) (url : string)
    (* [client.Do]: the [n]-th request, sent by a client whose [Timeout]
       is [timeout] nanoseconds; zero means no timeout *)
| EvAcquire (h : Handle)
| EvClose (h : Handle)
| EvReadAll (h : Handle)
| EvNewRestoreReader
| EvReadFirstEntry
| EvRestore
| EvReadEntry                          (* [ioutil.ReadAll(r)] *)
| EvParseStackID (b : string)
| EvExtractCacheArchive
| EvDownloadCacheArchive (url : string)
| EvCopy (src dst : Handle)
| EvUncompressArchive (pth : string).

(** A computation of the run: from the number of requests sent so far
    to the events it adds, the new number of requests, and either a
    value or the status of [os.Exit], which ends the process at once
    (no deferred call runs after it). *)
Inductive Outcome (A : Type) : Type :=
| Return (a : A)
| Exit (code : Z).
Arguments Return {A} a.
Arguments Exit {A} code.

Definition M (A : Type) : Type := nat -> list Event * nat * Outcome A.

Definition ret {A} (a : A) : M A := fun n => ([], n, Return a).

Definition bind {A B} (m : M A) (k : A -> M B) : M B :=
  fun n =>
    match m n with
    | (t1, n1, Return a) =>
      match k a n1 with
      | (t2, n2, o) => ((t1 ++ t2)%list, n2, o)
      end
    | (t1, n1, Exit code) => (t1, n1, Exit code)
    end.

Declare Scope run_scope.
Delimit Scope run_scope with run.
Notation "x <- m ;; k" := (bind m (fun x => k))
  (at level 61, m at next level, right associativity) : run_scope.
Notation "m ;; k" := (bind m (fun _ => k))
  (at level 61, right associativity) : run_scope.
Notation "' pat <- m ;; k" := (bind m (fun x => match x with pat => k end))
  (at level 61, pat pattern, m at next level, right associativity) : run_scope.

Definition emit (e : Event) : M unit := fun n => ([e], n, Return tt).
Definition os_Exit {A} (code : Z) : M A := fun n => ([], n, Exit code).
Definition next_request : M nat := fun n => ([], S n, Return n).

Module time.
Definition Nanosecond : Z := 1.
Definition Second : Z := 1000000000 * Nanosecond.
End time.

Module http.

Record Client : Type := { Timeout : Z }.

(** [http.DefaultClient] is the zero [Client]: no timeout. *)
Definition DefaultClient : Client := {| Timeout := 0 |}.

(** The default transport serves the schemes [http] and [https] only;
    a URL that starts with [file://] is refused before anything is
    sent. *)
Definition unsupported_scheme : error := Foreign "unsupported protocol scheme".

End http.

(* ================================================================= *)
(** ** [main.go] *)

Section Run.

Variable w : World.

Local Open Scope run_scope.

(** *** The logger and the calls into the environment *)

Definition logf (lvl : Level) (format : string) (args : list (arg error))
  : M unit := emit (EvLog lvl format args).

(** [failf] prints an error and terminates the step. *)
Definition failf {A} (format : string) (args : list (arg error)) : M A :=
  logf LError format args ;;
  os_Exit 1.

(** [client.Do(req)]: the request is counted and recorded with the
    timeout of its client; a response comes with its open body. *)
Definition Do (c : http.Client) (url : string) : M (result (nat * Response)) :=
  n <- next_request ;;
  emit (EvRequest n (http.Timeout c) url) ;;
  if strings.HasPrefix url "file://" then ret (Err http.unsupported_scheme)
  else
    match roundTrip w n url with
    | Err e => ret (Err e)
    | Ok resp => emit (EvAcquire (Body n)) ;; ret (Ok (n, resp))
    end.

(** [http.Get(url)]: [DefaultClient.Get], that is [NewRequest] and
    [Do] on the default client. *)
Definition http_Get (url : string) : M (result (nat * Response)) :=
  match http_NewRequest w url with
  | Some e => ret (Err e)
  | None => Do http.DefaultClient url
  end.

(** [ioutil.ReadAll(resp.Body)] *)
Definition ReadAll (n : nat) (resp : Response) : M (string * option error) :=
  emit (EvReadAll (Body n)) ;;
  ret (BodyRead resp).

(** The deferred closure of the three functions below: the body is
    closed, a failure to close is logged. *)
Definition closeBody (n : nat) (resp : Response) : M unit :=
  emit (EvClose (Body n)) ;;
  match BodyClose resp with
  | Some err => logf LWarn "Failed to close response body: %s" [AErr err]
  | None => ret tt
  end.

Definition cacheArchivePath : string := "/tmp/cache-archive.tar".

(** [downloadCacheArchive] downloads the cache archive and returns the
    downloaded file's path.  If the URI points to a local file it
    returns the local path. *)
Definition downloadCacheArchive (url : string) : M (result string) :=
  emit (EvDownloadCacheArchive url) ;;
  if strings.HasPrefix url "file://"
  then ret (Ok (strings.TrimPrefix url "file://"))
  else
    got <- http_Get url ;;
    match got with
    | Err err => ret (Err err)
    | Ok (n, resp) =>
      (* from here on the deferred Close runs at every return *)
      r <- (if negb (StatusCode resp =? 200)%Z then
              '(responseBytes, rerr) <- ReadAll n resp ;;
              match rerr with
              | Some err => ret (Err err)
              | None =>
                ret (Err (Errorf "non success response code: %d, body: %s"
                                 [AInt (StatusCode resp); AStr responseBytes]))
              end
            else
              match fs_Create w cacheArchivePath with
              | Some err =>
                ret (Err (Errorf "failed to open the local cache file for write: %s"
                                 [AErr err]))
              | None =>
                emit (EvAcquire (CreatedFile cacheArchivePath)) ;;
                emit (EvCopy (Body n) (CreatedFile cacheArchivePath)) ;;
                match copyBody w n with
                | Some err => ret (Err err)
                | None => ret (Ok cacheArchivePath)
                end
              end) ;;
      closeBody n resp ;;
      ret r
    end.

(** [performRequest] performs an http request and returns the
    response's body, if the status code is 200. *)
Definition performRequest (url : string) : M (result Handle) :=
  got <- http_Get url ;;
  match got with
  | Err err => ret (Err err)
  | Ok (n, resp) =>
    if negb (StatusCode resp =? 200)%Z then
      (* the Close deferred in this branch runs at both returns *)
      r <- ('(responseBytes, rerr) <- ReadAll n resp ;;
            match rerr with
            | Some err => ret (Err err)
            | None =>
              ret (Err (Errorf "non success response code: %d, body: %s"
                               [AInt (StatusCode resp); AStr responseBytes]))
            end) ;;
      closeBody n resp ;;
      ret r
    else ret (Ok (Body n))
  end.

(** [getCacheDownloadURL] gets the given build's cache download URL. *)
Definition getCacheDownloadURL (cacheAPIURL : string) : M (result string) :=
  match http_NewRequest w cacheAPIURL with
  | Some err => ret (Err (Errorf "failed to create request: %s" [AErr err]))
  | None =>
    let client := {| http.Timeout := 20 * time.Second |} in
    got <- Do client cacheAPIURL ;;
    match got with
    | Err err => ret (Err (Errorf "failed to send request: %s" [AErr err]))
    | Ok (n, resp) =>
      r <- ('(body, rerr) <- ReadAll n resp ;;
            match rerr with
            | Some _ =>
              ret (Err (Errorf
                "request sent, but failed to read response body (http-code: %d): %s"
                [AInt (StatusCode resp); AStr body]))
            | None =>
              if (StatusCode resp <? 200)%Z || (202 <? StatusCode resp)%Z then
                ret (Err (Errorf
                  "build cache not found: probably cache not initialised yet (first cache push initialises the cache), nothing to worry about ;)"
                  []))
              else
                match json.Unmarshal body "download_url" "" with
                | (_, Some err) =>
                  ret (Err (Errorf "failed to parse JSON response (%s): %s"
                                   [AStr body; AErr err]))
                | (DownloadURL, None) =>
                  if String.eqb DownloadURL ""
                  then ret (Err (New "download URL not included in the response"))
                  else ret (Ok DownloadURL)
                end
            end) ;;
      closeBody n resp ;;
      ret r
    end
  end.

(** [parseStackID] reads the stack id from the given json bytes. *)
Definition parseStackID (b : string) : string * option error :=
  match json.Unmarshal b "stack_id" "" with
  | (_, Some err) => ("", Some err)
  | (StackID, None) => (StackID, None)
  end.

(** *** [main], in the three stretches of its body *)

(** Lines 166-198: the archive stream and the URI it came from. *)
Definition openCache (conf : Config) : M (Handle * string) :=
  if strings.HasPrefix (CacheAPIURL conf) "file://" then
    let cacheURI := CacheAPIURL conf in
    emit EvPrintln ;;
    logf LInfo "Using local cache archive" [] ;;
    let pth := strings.TrimPrefix (CacheAPIURL conf) "file://" in
    match fs_Open w pth with
    | Some err => failf "Failed to open cache archive file: %s" [AErr err]
    | None =>
      emit (EvAcquire (OpenedFile pth)) ;;
      ret (OpenedFile pth, cacheURI)
    end
  else
    emit EvPrintln ;;
    logf LInfo "Downloading remote cache archive" [] ;;
    got <- getCacheDownloadURL (CacheAPIURL conf) ;;
    match got with
    | Err err => failf "Failed to get cache download url: %s" [AErr err]
    | Ok downloadURL =>
      let cacheURI := downloadURL in
      logf LInfo "%s" [AStr downloadURL] ;;
      body <- performRequest downloadURL ;;
      match body with
      | Err err => failf "Failed to perform cache download request: %s" [AErr err]
      | Ok cacheReader => ret (cacheReader, cacheURI)
      end
    end.

(** Lines 202-235: the stack check. *)
Definition checkStack (conf : Config) : M unit :=
  let currentStackID := strings.TrimSpace (StackID conf) in
  if (0 <? String.length currentStackID)%nat then
    emit EvPrintln ;;
    logf LInfo "Checking archive and current stacks" [] ;;
    logf LPrint "current stack id: %s" [AStr currentStackID] ;;
    emit EvReadFirstEntry ;;
    match firstEntry w with
    | Err err => failf "Failed to get first archive entry: %s" [AErr err]
    | Ok hdrName =>
      emit EvRestore ;;
      if String.eqb (filepath.Base hdrName) "archive_info.json" then
        emit EvReadEntry ;;
        match entryPayload w with
        | (_, Some err) => failf "Failed to read first archive entry: %s" [AErr err]
        | (b, None) =>
          emit (EvParseStackID b) ;;
          match parseStackID b with
          | (_, Some err) =>
            failf "Failed to parse first archive entry: %s" [AErr err]
          | (archiveStackID, None) =>
            logf LPrint "archive stack id: %s" [AStr archiveStackID] ;;
            if negb (String.eqb archiveStackID currentStackID) then
              logf LWarn "Cache was created on stack: %s, current stack: %s"
                   [AStr archiveStackID; AStr currentStackID] ;;
              logf LWarn "Skipping cache pull, because of the stack has changed" [] ;;
              os_Exit 0
            else ret tt
          end
        end
      else
        logf LWarn
          "cache archive does not contain stack information, skipping stack check" []
    end
  else ret tt.

(** Lines 237-252: extraction from the stream, and the fallback. *)
Definition extract (cacheURI : string) : M unit :=
  emit EvPrintln ;;
  logf LInfo "Extracting cache archive" [] ;;
  emit EvExtractCacheArchive ;;
  match streamExtract w with
  | Some err =>
    logf LWarn "Failed to uncompress cache archive stream: %s" [AErr err] ;;
    logf LWarn "Downloading the archive file and trying to uncompress using tar tool" [] ;;
    got <- downloadCacheArchive cacheURI ;;
    match got with
    | Err err => failf "Fallback failed, unable to download cache archive: %s" [AErr err]
    | Ok pth =>
      emit (EvUncompressArchive pth) ;;
      match tarExtract w pth with
      | Some err =>
        failf "Fallback failed, unable to uncompress cache archive file: %s" [AErr err]
      | None => ret tt
      end
    end
  | None => ret tt
  end.

Definition main : M unit :=
  match stepconf_Parse w with
  | inl text => failf text []
  | inr conf =>
    emit (EvPrintConf conf) ;;
    emit (EvSetEnableDebugLog (DebugMode conf)) ;;
    if String.eqb (CacheAPIURL conf) "" then
      logf LWarn "No Cache API URL specified, there's no cache to use, exiting." []
    else
      '(cacheReader, cacheURI) <- openCache conf ;;
      emit EvNewRestoreReader ;;
      checkStack conf ;;
      extract cacheURI ;;
      emit EvPrintln ;;
      logf LDone "Done" [] ;;
      logf LPrint ("Took: " ++ elapsed w) []
  end.

End Run.

(** The events of a run and the exit status of the process: a [main]
    that returns ends the process with status 0. *)
Definition run (w : World) : list Event * Z :=
  match main w 0%nat with
  | (t, _, Return _) => (t, 0)
  | (t, _, Exit code) => (t, code)
  end.

Definition trace (w : World) : list Event := fst (run w).
Definition status (w : World) : Z := snd (run w).

(* ================================================================= *)
(** ** Reading a trace *)

Definition is_read_first_entry (e : Event) : bool :=
  match e with EvReadFirstEntry => true | _ => false end.
Definition is_restore (e : Event) : bool :=
  match e with EvRestore => true | _ => false end.
Definition is_read_entry (e : Event) : bool :=
  match e with EvReadEntry => true | _ => false end.
Definition is_parse (e : Event) : bool :=
  match e with EvParseStackID _ => true | _ => false end.
Definition is_extract (e : Event) : bool :=
  match e with EvExtractCacheArchive => true | _ => false end.
Definition is_fallback (e : Event) : bool :=
  match e with EvDownloadCacheArchive _ => true | _ => false end.
Definition is_uncompress (e : Event) : bool :=
  match e with EvUncompressArchive _ => true | _ => false end.
Definition is_copy (e : Event) : bool :=
  match e with EvCopy _ _ => true | _ => false end.
Definition is_request (e : Event) : bool :=
  match e with EvRequest _ _ _ => true | _ => false end.
Definition is_wrap (e : Event) : bool :=
  match e with EvNewRestoreReader => true | _ => false end.

Definition Handle_eqb (a b : Handle) : bool :=
  match a, b with
  | OpenedFile p, OpenedFile q => String.eqb p q
  | Body n, Body m => Nat.eqb n m
  | CreatedFile p, CreatedFile q => String.eqb p q
  | _, _ => false
  end.

Definition is_acquire (h : Handle) (e : Event) : bool :=
  match e with EvAcquire h' => Handle_eqb h h' | _ => false end.
Definition is_close (h : Handle) (e : Event) : bool :=
  match e with EvClose h' => Handle_eqb h h' | _ => false end.

(** The events of the pipeline proper: everything from the wrapping of
    the stream on. *)
Definition is_pipeline (e : Event) : bool :=
  match e with
  | EvNewRestoreReader | EvReadFirstEntry | EvRestore | EvReadEntry
  | EvParseStackID _ | EvExtractCacheArchive | EvDownloadCacheArchive _
  | EvCopy _ _ | EvUncompressArchive _ => true
  | _ => false
  end.

Definition occurs (p : Event -> bool) (t : list Event) : Prop :=
  existsb p t = true.

Definition count (p : Event -> bool) (t : list Event) : nat :=
  List.length (filter p t).

(** Every [q] event of the trace has a [p] event somewhere before it. *)
Definition precedes (p q : Event -> bool) (t : list Event) : Prop :=
  forall pre e post, t = (pre ++ e :: post)%list -> q e = true ->
                     existsb p pre = true.

(** No [q] event comes later than a [p] event. *)
Definition none_after (p q : Event -> bool) (t : list Event) : Prop :=
  forall pre e post, t = (pre ++ e :: post)%list -> p e = true ->
                     existsb q post = false.

Fixpoint precedesb (p q : Event -> bool) (seen : bool) (t : list Event) : bool :=
  match t with
  | [] => true
  | e :: t' => (if q e then seen else true) && precedesb p q (seen || p e) t'
  end.

Fixpoint none_afterb (p q : Event -> bool) (t : list Event) : bool :=
  match t with
  | [] => true
  | e :: t' => (if p e then negb (existsb q t') else true) && none_afterb p q t'
  end.

(** The events before the pipeline, kept apart from what follows. *)
Definition cat (a b : list Event) : list Event := (a ++ b)%list.

(** The last lines of [main]. *)
Definition final_events (w : World) : list Event :=
  [EvPrintln; EvLog LDone "Done" []; EvLog LPrint ("Took: " ++ elapsed w) []].

(** A request is sent under the timeout of 20 seconds exactly when it
    is the first request of the run, the look-up sent to [lookupURL];
    every later request is sent without timeout. *)
Definition timeout_only_on_lookup (lookupURL : string) (e : Event) : Prop :=
  match e with
  | EvRequest n timeout url =>
    (n = 0%nat /\ url = lookupURL /\ timeout = 20 * time.Second) \/
    (n <> 0%nat /\ timeout = 0)
  | _ => True
  end.

(* ================================================================= *)
(** ** Notions used in the statements *)

(** The fallback download of [url], sent as the request [n], leaves the
    archive at [cacheArchivePath]: the response is a 200, the local file
    can be created and the copy succeeds. *)
Definition download_ok (w : World) (n : nat) (url : string) : bool :=
  match roundTrip w n url with
  | Ok resp =>
    (StatusCode resp =? 200) &&
    match fs_Create w cacheArchivePath, copyBody w n with
    | None, None => true
    | _, _ => false
    end
  | Err _ => false
  end.

Definition exit_status (r : option error) : Z :=
  match r with None => 0 | Some _ => 1 end.

(** A string made of white space only: the UTF-8 encoding of a
    sequence of runes that [unicode.IsSpace] accepts. *)
Inductive only_space : string -> Prop :=
| only_space_nil : only_space ""
| only_space_cons r s :
    unicode.IsSpace r = true -> only_space s ->
    only_space (utf8.EncodeRune r ++ s).

(** ASCII letters brought to lower case. *)
Definition lower (c : ascii) : ascii :=
  let b := byte_of c in
  if (65 <=? b) && (b <=? 90) then chr (b + 32) else c.

Fixpoint to_lower (s : string) : string :=
  match s with
  | EmptyString => EmptyString
  | String c t => String (lower c) (to_lower t)
  end.

(** A JSON value fits a struct whose only field is a string named
    [name]: it is [null], or an object in which every member that
    selects the field holds a string or [null]. *)
Definition fits (name : string) (v : json.Value) : bool :=
  match v with
  | json.Null => true
  | json.Object m =>
    forallb (fun kv : string * json.Value =>
               negb (json.selects name (fst kv)) ||
               match snd kv with
               | json.Str _ | json.Null => true
               | _ => false
               end) m
  | _ => false
  end.

(** No member of the object selects the field. *)
Definition absent (name : string) (m : list (string * json.Value)) : bool :=
  forallb (fun kv : string * json.Value => negb (json.selects name (fst kv))) m.

(** The response bodies in the events that come before the pipeline:
    the body of the look-up is closed as often as it is opened, at most
    once; the body of the download is opened at most once, and closed if
    the run ends there ([exited]); no later body occurs. *)
Definition bodies_before (exited : bool) (t : list Event) : Prop :=
  count (is_acquire (Body 0)) t = count (is_close (Body 0)) t /\
  (count (is_close (Body 0)) t <= 1)%nat /\
  (count (is_close (Body 1)) t <= count (is_acquire (Body 1)) t <= 1)%nat /\
  (forall n, (2 <= n)%nat ->
             count (is_acquire (Body n)) t = 0%nat /\
             count (is_close (Body n)) t = 0%nat) /\
  (exited = true ->
   count (is_acquire (Body 1)) t = count (is_close (Body 1)) t).

(** The stream that a run hands to the pipeline. *)
Definition stream_handle (conf : Config) : Handle :=
  if strings.HasPrefix (CacheAPIURL conf) "file://"
  then OpenedFile (strings.TrimPrefix (CacheAPIURL conf) "file://")
  else Body 1.

Definition metadata_name : string := "archive_info.json".
Definition skip_warning : Event :=
  EvLog LWarn "Skipping cache pull, because of the stack has changed" [].
Definition no_metadata_warning : Event :=
  EvLog LWarn
    "cache archive does not contain stack information, skipping stack check" [].

(* ================================================================= *)
(** ** Sample runs *)

Module Samples.

(** The metadata entry written by the cache-push step. *)
Definition archive_info (stack : string) : string :=
  "{" ++ quoted "stack_id" ++ ":" ++ quoted stack ++ "}".

Definition ok_response (body : string) : Response :=
  {| StatusCode := 200; BodyRead := (body, None); BodyClose := None |}.

Definition lookup_answer (url : string) : string :=
  "{" ++ quoted "download_url" ++ ":" ++ quoted url ++ "}".

(** A world in which nothing fails: the archive starts with
    [archive_info.json] written on stack [stored]; the look-up answers
    with [https://cache.example/archive.tar.gz]. *)
Definition world (conf : Config) (stored : string) : World := {|
  stepconf_Parse := inr conf;
  elapsed := "1.5s";
  fs_Open := fun _ => None;
  fs_Create := fun _ => None;
  http_NewRequest := fun _ => None;
  roundTrip := fun n _ =>
    match n with
    | O => Ok (ok_response (lookup_answer "https://cache.example/archive.tar.gz"))
    | _ => Ok (ok_response "archive bytes")
    end;
  firstEntry := Ok "archive_info.json";
  entryPayload := (archive_info stored, None);
  streamExtract := None;
  copyBody := fun _ => None;
  tarExtract := fun _ => None
|}.

Definition with_firstEntry (w : World) (r : result string) : World := {|
  stepconf_Parse := stepconf_Parse w; elapsed := elapsed w;
  fs_Open := fs_Open w; fs_Create := fs_Create w;
  http_NewRequest := http_NewRequest w; roundTrip := roundTrip w;
  firstEntry := r;
  entryPayload := entryPayload w; streamExtract := streamExtract w;
  copyBody := copyBody w; tarExtract := tarExtract w
|}.

Definition with_entryPayload (w : World) (r : string * option error) : World := {|
  stepconf_Parse := stepconf_Parse w; elapsed := elapsed w;
  fs_Open := fs_Open w; fs_Create := fs_Create w;
  http_NewRequest := http_NewRequest w; roundTrip := roundTrip w;
  firstEntry := firstEntry w;
  entryPayload := r; streamExtract := streamExtract w;
  copyBody := copyBody w; tarExtract := tarExtract w
|}.

Definition with_streamExtract (w : World) (r : option error) : World := {|
  stepconf_Parse := stepconf_Parse w; elapsed := elapsed w;
  fs_Open := fs_Open w; fs_Create := fs_Create w;
  http_NewRequest := http_NewRequest w; roundTrip := roundTrip w;
  firstEntry := firstEntry w;
  entryPayload := entryPayload w; streamExtract := r;
  copyBody := copyBody w; tarExtract := tarExtract w
|}.

Definition with_tarExtract (w : World) (r : string -> option error) : World := {|
  stepconf_Parse := stepconf_Parse w; elapsed := elapsed w;
  fs_Open := fs_Open w; fs_Create := fs_Create w;
  http_NewRequest := http_NewRequest w; roundTrip := roundTrip w;
  firstEntry := firstEntry w;
  entryPayload := entryPayload w; streamExtract := streamExtract w;
  copyBody := copyBody w; tarExtract := r
|}.

Definition local_conf (stack : string) : Config :=
  {| CacheAPIURL := "file:///tmp/cache.tar.gz"; DebugMode := false;
     StackID := stack |}.

Definition remote_conf (stack : string) : Config :=
  {| CacheAPIURL := "https://api.example/cache"; DebugMode := false;
     StackID := stack |}.

Definition truncated : error := Foreign "unexpected EOF".

(** A local archive written on the stack of the run. *)
Definition matching : World := world (local_conf " osx-xcode ") "osx-xcode".

(** A local archive written on another stack. *)
Definition mismatching : World := world (local_conf "osx-xcode") "linux-docker".

(** A local archive whose first entry cannot be decoded. *)
Definition corrupt : World := with_firstEntry matching (Err truncated).

(** A local archive without the metadata entry. *)
Definition untagged : World := with_firstEntry matching (Ok "cache/Pods.tar").

(** A remote archive whose stream breaks off during extraction. *)
Definition remote_truncated : World :=
  with_streamExtract (world (remote_conf "osx-xcode") "osx-xcode") (Some truncated).

(** A run without a stack id. *)
Definition blank : World := world (local_conf (String (chr 9) " ")) "osx-xcode".

End Samples.

(* ================================================================= *)
(** ** Notions used in the further properties *)

Definition is_error (e : Event) : bool :=
  match e with EvLog LError _ _ => true | _ => false end.
Definition is_done (e : Event) : bool :=
  match e with EvLog LDone _ _ => true | _ => false end.
Definition is_read_all (e : Event) : bool :=
  match e with EvReadAll _ => true | _ => false end.
Definition is_create (e : Event) : bool :=
  match e with EvAcquire (CreatedFile _) => true | _ => false end.

(** The last event of the trace satisfies [p]. *)
Fixpoint ends_with (p : Event -> bool) (t : list Event) : bool :=
  match t with
  | [] => false
  | [e] => p e
  | _ :: t' => ends_with p t'
  end.

(** The first lines of [main] after the parsing of the inputs. *)
Definition head_events (conf : Config) : list Event :=
  [EvPrintConf conf; EvSetEnableDebugLog (DebugMode conf)].

(** The look-up of the download URL at [u], sent as the request [n],
    answers [d]: the request can be built and sent, the body can be
    read, the status is 200, 201 or 202, and the body is JSON that fits
    the response struct with a [download_url] that is not empty. *)
Definition lookup_succeeds (w : World) (u : string) (n : nat) (d : string) : Prop :=
  http_NewRequest w u = None /\
  strings.HasPrefix u "file://" = false /\
  exists resp body,
    roundTrip w n u = Ok resp /\
    BodyRead resp = (body, None) /\
    200 <= StatusCode resp <= 202 /\
    json.Unmarshal body "download_url" "" = (d, None) /\
    d <> "".

(** The request for [u], sent as the request [n], is answered with a
    200. *)
Definition answers_200 (w : World) (u : string) (n : nat) (resp : Response) : Prop :=
  http_NewRequest w u = None /\
  strings.HasPrefix u "file://" = false /\
  roundTrip w n u = Ok resp /\
  StatusCode resp = 200.

(** Where a request of a run goes: the first request is the look-up,
    sent to the cache API URL under the timeout; the second and third go,
    without timeout, to the URL that the look-up answered. *)
Definition request_provenance (w : World) (conf : Config) (e : Event) : Prop :=
  match e with
  | EvRequest m d u =>
    (m = 0%nat /\ d = 20 * time.Second /\ u = CacheAPIURL conf) \/
    ((m = 1%nat \/ m = 2%nat) /\ d = 0 /\
     lookup_succeeds w (CacheAPIURL conf) 0 u)
  | _ => True
  end.


(** A string of printable ASCII without the double quote and the
    backslash: what a JSON string literal holds unescaped. *)
Definition plain_char (c : ascii) : bool :=
  (32 <=? byte_of c) && (byte_of c <? 127) &&
  negb (Ascii.eqb c dquote) && negb (Ascii.eqb c backslash).

Fixpoint plain (s : string) : bool :=
  match s with
  | EmptyString => true
  | String c t => plain_char c && plain t
  end.

(** The JSON object with the one member [key], holding the string
    [val]. *)
Definition one_member (key val : string) : string :=
  "{" ++ quoted key ++ ":" ++ quoted val ++ "}".

(** ASCII characters that [unicode.IsSpace] takes for space, and those
    it does not. *)
Definition ascii_blank (c : ascii) : bool :=
  (byte_of c <? utf8.RuneSelf) && unicode.IsSpace (byte_of c).

Definition ascii_solid (c : ascii) : bool :=
  (byte_of c <? utf8.RuneSelf) && negb (unicode.IsSpace (byte_of c)).

Fixpoint all_chars (p : ascii -> bool) (s : string) : bool :=
  match s with
  | EmptyString => true
  | String c t => p c && all_chars p t
  end.

(** The last character of [String d s]. *)
Fixpoint last_char (s : string) (d : ascii) : ascii :=
  match s with
  | EmptyString => d
  | String c t => last_char t c
  end.

(** A string that is empty, or begins and ends with an ASCII character
    that is no space; what lies between is arbitrary. *)
Definition solid_ends (s : string) : bool :=
  match s with
  | EmptyString => true
  | String c t => ascii_solid c && ascii_solid (last_char t c)
  end.

(** [k] slashes. *)
Fixpoint slashes (k : nat) : string :=
  match k with
  | O => EmptyString
  | S k' => String filepath.Separator (slashes k')
  end.

Definition no_sep (s : string) : bool :=
  negb (existsb filepath.IsPathSeparator (list_ascii_of_string s)).

(** [p] is [name] below some directory, possibly followed by slashes. *)
Definition names (p name : string) : Prop :=
  exists dir k,
    p = dir ++ name ++ slashes k /\ (dir = "" \/ exists d, dir = d ++ "/").

(** A look-up answered with "not found". *)
Definition not_found_response : Response :=
  {| StatusCode := 404; BodyRead := ("not found", None); BodyClose := None |}.

Definition with_roundTrip (w : World)
           (r : nat -> string -> result Response) : World := {|
  stepconf_Parse := stepconf_Parse w; elapsed := elapsed w;
  fs_Open := fs_Open w; fs_Create := fs_Create w;
  http_NewRequest := http_NewRequest w; roundTrip := r;
  firstEntry := firstEntry w;
  entryPayload := entryPayload w; streamExtract := streamExtract w;
  copyBody := copyBody w; tarExtract := tarExtract w
|}.

(** A remote cache that has not been pushed yet. *)
Definition uninitialised : World :=
  with_roundTrip (Samples.world (Samples.remote_conf "osx-xcode") "osx-xcode")
                 (fun _ _ => Ok not_found_response).

(* ================================================================= *)
(** ** Traces: general facts *)

Lemma count_app p t1 t2 :
  count p (t1 ++ t2)%list = (count p t1 + count p t2)%nat.
Proof. unfold count. now rewrite filter_app, length_app. Qed.

Lemma count_quiet p t : existsb p t = false -> count p t = 0%nat.
Proof.
  unfold count. induction t as [|e t IH]; simpl; [reflexivity|].
  intros H. apply orb_false_iff in H as [He Ht]. rewrite He. now apply IH.
Qed.

Lemma count_cons_quiet p e t : p e = false -> count p (e :: t) = count p t.
Proof. unfold count. simpl. now intros ->. Qed.

Lemma quiet_sub (p q : Event -> bool) t :
  (forall e, p e = true -> q e = true) ->
  existsb q t = false -> existsb p t = false.
Proof.
  intros Hpq. induction t as [|e t IH]; simpl; [reflexivity|].
  intros H. apply orb_false_iff in H as [He Ht].
  rewrite (IH Ht), orb_false_r.
  destruct (p e) eqn:E; [|reflexivity]. apply Hpq in E. congruence.
Qed.

Lemma precedesb_sound p q t :
  forall seen, precedesb p q seen t = true ->
  forall pre e post, t = (pre ++ e :: post)%list -> q e = true ->
                     seen || existsb p pre = true.
Proof.
  induction t as [|a t IH]; intros seen H pre e post Heq Hq.
  - destruct pre; discriminate.
  - simpl in H. apply andb_true_iff in H as [Hhead Htail].
    destruct pre as [|a' pre]; simpl in Heq; injection Heq as -> ->.
    + rewrite Hq in Hhead. now rewrite Hhead.
    + specialize (IH _ Htail _ _ _ eq_refl Hq). simpl.
      now rewrite orb_assoc.
Qed.

Lemma precedesb_complete p q t :
  forall seen,
    (forall pre e post, t = (pre ++ e :: post)%list -> q e = true ->
                        seen || existsb p pre = true) ->
    precedesb p q seen t = true.
Proof.
  induction t as [|a t IH]; intros seen H; [reflexivity|].
  simpl. apply andb_true_iff. split.
  - destruct (q a) eqn:Hq; [|reflexivity].
    specialize (H [] a t eq_refl Hq). simpl in H. now rewrite orb_false_r in H.
  - apply IH. intros pre e post -> Hq.
    specialize (H (a :: pre) e post eq_refl Hq). simpl in H.
    now rewrite orb_assoc in H.
Qed.

Lemma precedes_iff p q t : precedes p q t <-> precedesb p q false t = true.
Proof.
  split.
  - intros H. apply precedesb_complete. intros pre e post Heq Hq.
    exact (H pre e post Heq Hq).
  - intros H pre e post Heq Hq.
    exact (precedesb_sound p q t false H pre e post Heq Hq).
Qed.

Lemma precedes_cons_quiet p q a t :
  q a = false -> precedes p q t -> precedes p q (a :: t).
Proof.
  intros Ha H pre e post Heq Hq.
  destruct pre as [|a' pre]; simpl in Heq; injection Heq as -> ->.
  - congruence.
  - simpl. rewrite (H _ _ _ eq_refl Hq). apply orb_true_r.
Qed.

Lemma precedes_app_quiet p q t0 t :
  existsb q t0 = false -> precedes p q t -> precedes p q (t0 ++ t).
Proof.
  induction t0 as [|a t0 IH]; simpl; intros Hq H; [exact H|].
  apply orb_false_iff in Hq as [Ha Ht0].
  apply precedes_cons_quiet; auto.
Qed.

Lemma precedes_quiet p q t : existsb q t = false -> precedes p q t.
Proof.
  intros H. rewrite <- (app_nil_r t). apply precedes_app_quiet; [exact H|].
  intros pre e post Heq. destruct pre; discriminate.
Qed.

Lemma none_after_of_bool p q t : none_afterb p q t = true -> none_after p q t.
Proof.
  induction t as [|a t IH]; intros H pre e post Heq Hp.
  - destruct pre; discriminate.
  - simpl in H. apply andb_true_iff in H as [Hhead Htail].
    destruct pre as [|a' pre]; simpl in Heq; injection Heq as -> ->.
    + rewrite Hp in Hhead. now apply negb_true_iff.
    + exact (IH Htail _ _ _ eq_refl Hp).
Qed.

Lemma none_after_cons_quiet p q a t :
  p a = false -> none_after p q t -> none_after p q (a :: t).
Proof.
  intros Ha H pre e post Heq Hp.
  destruct pre as [|a' pre]; simpl in Heq; injection Heq as -> ->.
  - congruence.
  - exact (H _ _ _ eq_refl Hp).
Qed.

Lemma none_after_app_quiet p q t0 t :
  existsb p t0 = false -> none_after p q t -> none_after p q (t0 ++ t).
Proof.
  induction t0 as [|a t0 IH]; simpl; intros Hq H; [exact H|].
  apply orb_false_iff in Hq as [Ha Ht0].
  apply none_after_cons_quiet; auto.
Qed.

Lemma none_after_quiet p q t : existsb p t = false -> none_after p q t.
Proof.
  intros H. rewrite <- (app_nil_r t). apply none_after_app_quiet; [exact H|].
  intros pre e post Heq. destruct pre; discriminate.
Qed.

Lemma occurs_app_r p t0 t : occurs p t -> occurs p (t0 ++ t).
Proof. unfold occurs. rewrite existsb_app. intros ->. apply orb_true_r. Qed.

Lemma existsb_cat p t0 t : existsb p (cat t0 t) = existsb p t0 || existsb p t.
Proof. apply existsb_app. Qed.

Lemma count_cat p t0 t : count p (cat t0 t) = (count p t0 + count p t)%nat.
Proof. apply count_app. Qed.

Lemma In_cat e t0 t : In e (cat t0 t) <-> In e t0 \/ In e t.
Proof. apply in_app_iff. Qed.

Lemma Forall_cat (P : Event -> Prop) t0 t :
  Forall P t0 -> Forall P t -> Forall P (cat t0 t).
Proof. intros. apply Forall_app. now split. Qed.

Lemma quiet_no_stream t : existsb is_pipeline t = false -> existsb is_wrap t = false.
Proof.
  apply quiet_sub. intros e; destruct e; cbn; intros;
    solve [reflexivity | discriminate].
Qed.

Lemma bodies_before_cons exited e t :
  (forall h, is_acquire h e = false) -> (forall h, is_close h e = false) ->
  bodies_before exited t -> bodies_before exited (e :: t).
Proof.
  intros Ha Hc. unfold bodies_before.
  rewrite !(count_cons_quiet _ e) by auto.
  intros (H0 & H0' & H1 & H2 & H3).
  split; [exact H0|]. split; [exact H0'|]. split; [exact H1|].
  split; [|exact H3].
  intros n Hn. rewrite !(count_cons_quiet _ e) by auto. now apply H2.
Qed.

(* ================================================================= *)
(** ** Tactics for the paths of a run *)

(** Destructs what the goal branches on, innermost scrutinee first. *)
Ltac break_step :=
  match goal with
  | |- context [match ?x with _ => _ end] =>
    lazymatch x with
    | context [match _ with _ => _ end] => fail
    | _ => destruct x eqn:?
    end
  | |- context [if ?x then _ else _] =>
    lazymatch x with
    | context [if _ then _ else _] => fail
    | _ => destruct x eqn:?
    end
  end.

Ltac run_paths :=
  repeat (cbv beta iota zeta delta
              [bind ret emit os_Exit next_request logf failf app fst snd
               negb andb orb];
          try break_step).

Ltac forall_events :=
  repeat (apply Forall_cons;
          [cbn; first [exact I
                      | left; repeat split; reflexivity
                      | right; split; [discriminate | reflexivity]] |]);
  apply Forall_nil.

Ltac in_events := cbn; repeat (try (left; reflexivity); right).

Ltac conj := repeat match goal with |- _ /\ _ => split end.

Ltac pipeline_class :=
  let e := fresh "e" in
  intros e; destruct e; cbn; intros; solve [reflexivity | discriminate].

Ltac quiet Hq := apply (quiet_sub _ is_pipeline); [pipeline_class | exact Hq].

Ltac unfold_pipeline :=
  unfold checkStack, extract, downloadCacheArchive, http_Get, Do, ReadAll,
    closeBody, download_ok, exit_status, cacheArchivePath.

Ltac order Hq :=
  lazymatch goal with
  | |- precedes _ _ (cat _ _) =>
    apply precedes_app_quiet; [quiet Hq | apply precedes_iff; reflexivity]
  | |- none_after _ _ (cat _ _) =>
    apply none_after_app_quiet; [quiet Hq | apply none_after_of_bool; reflexivity]
  | |- precedes _ _ _ => apply precedes_quiet; quiet Hq
  | |- none_after _ _ _ => apply none_after_quiet; quiet Hq
  end.

(** Rewrites the trace and status of the run by its shape. *)
Ltac use_run Hrun :=
  unfold trace, status in *; rewrite Hrun in *; cbn [fst snd] in *.

(** Closes the usual goals about a run of known shape, whose events
    before the pipeline are quiet by [Hq]. *)
Ltac trace_goal Hq :=
  lazymatch goal with
  | |- count ?p (cat _ _) = _ =>
    rewrite count_cat;
    first [ rewrite (count_quiet p) by (first [assumption | quiet Hq]); reflexivity
          | match goal with H : count p _ = _ |- _ => rewrite H end; reflexivity ]
  | |- (count ?p (cat _ _) <= _)%nat =>
    rewrite count_cat, (count_quiet p) by (first [assumption | quiet Hq]);
    cbn; lia
  | |- existsb ?p (cat _ _) = false =>
    rewrite existsb_cat;
    replace (existsb p _) with false
      by (symmetry; first [assumption | quiet Hq]);
    reflexivity
  | |- occurs _ (cat _ _) => apply occurs_app_r; reflexivity
  | |- In _ (cat _ _) =>
    apply In_cat; first [ left; assumption | right; in_events ]
  | |- precedes _ _ _ => order Hq
  | |- none_after _ _ _ => order Hq
  | |- _ = _ => reflexivity
  end.

(** A run of known shape that exits before an event of the pipeline
    that it is assumed to hold. *)
Ltac unreached Hq H :=
  exfalso; unfold occurs in H; rewrite existsb_cat in H;
  match type of H with
  | existsb ?p ?t0 || _ = true =>
    replace (existsb p t0) with false in H by (symmetry; quiet Hq)
  end;
  discriminate H.

(* ================================================================= *)
(** ** Facts about the library model *)

(** ** White space and [strings.TrimSpace] *)

Lemma IsSpace_cases r :
  unicode.IsSpace r = true ->
  r = 9 \/ r = 10 \/ r = 11 \/ r = 12 \/ r = 13 \/ r = 32 \/ r = 0x85 \/
  r = 0xA0 \/ r = 0x1680 \/ r = 0x2000 \/ r = 0x2001 \/ r = 0x2002 \/
  r = 0x2003 \/ r = 0x2004 \/ r = 0x2005 \/ r = 0x2006 \/ r = 0x2007 \/
  r = 0x2008 \/ r = 0x2009 \/ r = 0x200A \/ r = 0x2028 \/ r = 0x2029 \/
  r = 0x202F \/ r = 0x205F \/ r = 0x3000.
Proof.
  unfold unicode.IsSpace.
  destruct ((0 <=? r) && (r <=? 0xFF)) eqn:Hlatin; intros H;
    repeat (apply orb_true_iff in H as [H | H]);
    try (apply andb_true_iff in H as [H1 H2]);
    try apply Z.eqb_eq in H; lia.
Qed.

Lemma TrimLeftSpace_space r s :
  unicode.IsSpace r = true ->
  strings.TrimLeftSpace (utf8.EncodeRune r ++ s) = strings.TrimLeftSpace s.
Proof.
  intros H. apply IsSpace_cases in H.
  repeat (destruct H as [-> | H]); try subst r; reflexivity.
Qed.

Lemma TrimSpace_only_space s : only_space s -> strings.TrimSpace s = "".
Proof.
  intros H. unfold strings.TrimSpace.
  replace (strings.TrimLeftSpace s) with ""; [reflexivity|].
  induction H as [|r s Hr Hs IH]; [reflexivity|].
  now rewrite TrimLeftSpace_space.
Qed.

(** ** [filepath.Base] below a directory *)

Lemma list_ascii_of_string_app a b :
  list_ascii_of_string (a ++ b) =
  (list_ascii_of_string a ++ list_ascii_of_string b)%list.
Proof. induction a as [|c a IH]; simpl; [reflexivity | now rewrite IH]. Qed.

Lemma Base_in_directory dir :
  filepath.Base (dir ++ "/" ++ metadata_name) = metadata_name.
Proof.
  unfold filepath.Base.
  replace (String.eqb (dir ++ "/" ++ metadata_name) "") with false
    by (destruct dir; reflexivity).
  rewrite list_ascii_of_string_app, rev_app_distr.
  reflexivity.
Qed.


(** ** The JSON parser never runs out of its budget *)

Module json_facts.
Import json.

Lemma skip_space_length s : (String.length (skip_space s) <= String.length s)%nat.
Proof.
  induction s as [|c s IH]; simpl; [lia|].
  destruct (isSpace c); simpl; lia.
Qed.

Lemma digits_length s : (String.length (digits s) <= String.length s)%nat.
Proof.
  induction s as [|c s IH]; simpl; [lia|].
  destruct (isDigit c); simpl; lia.
Qed.

Lemma scan_string_length s :
  forall raw rest, scan_string s = Some (raw, rest) ->
                   (String.length rest < String.length s)%nat.
Proof.
  induction s as [s IH] using (well_founded_induction
                                 (Wf_nat.well_founded_ltof _ String.length)).
  unfold Wf_nat.ltof in IH.
  intros raw rest. destruct s as [|c t]; [discriminate|].
  cbn [scan_string].
  repeat break_step; intros [= <- <-] || discriminate || idtac;
    cbn [String.length] in *; try lia.
  all: match goal with
       | H : scan_string ?x = Some (_, ?r) |- _ =>
         apply IH in H; cbn [String.length] in *; lia
       end.
Qed.

Ltac gen_digits :=
  repeat match goal with
         | |- context [digits ?x] =>
           pose proof (digits_length x); generalize dependent (digits x); intros
         | H : context [digits ?x] |- _ =>
           pose proof (digits_length x); generalize dependent (digits x); intros
         end.

Ltac inj_strings :=
  repeat match goal with
         | H : Some _ = Some _ |- _ => injection H as ?; subst
         | H : String _ _ = String _ _ |- _ => injection H as ? ?; subst
         | H : String _ _ = EmptyString |- _ => discriminate H
         | H : EmptyString = String _ _ |- _ => discriminate H
         | H : None = Some _ |- _ => discriminate H
         end.

Lemma scan_exp_length s rest :
  scan_exp s = Some rest -> (String.length rest <= String.length s)%nat.
Proof.
  unfold scan_exp.
  repeat break_step; intros H; inj_strings; gen_digits;
    cbn [String.length] in *; lia.
Qed.

Lemma scan_frac_length s rest :
  scan_frac s = Some rest -> (String.length rest <= String.length s)%nat.
Proof.
  unfold scan_frac.
  repeat break_step; intros H; inj_strings;
    try apply scan_exp_length in H; gen_digits;
    cbn [String.length] in *; lia.
Qed.

Lemma scan_number_length c t rest :
  scan_number (String c t) = Some rest ->
  (String.length rest < String.length (String c t))%nat.
Proof.
  unfold scan_number.
  repeat break_step; intros H; inj_strings;
    try apply scan_frac_length in H; gen_digits;
    cbn [String.length] in *; lia.
Qed.

Lemma drop_length n s : String.length (drop n s) = (String.length s - n)%nat.
Proof.
  revert s. induction n as [|n IH]; intros [|c s]; simpl; try lia. apply IH.
Qed.

Lemma prefix_length p s :
  String.prefix p s = true -> (String.length p <= String.length s)%nat.
Proof.
  revert s. induction p as [|c p IH]; intros [|d s]; simpl; try lia; try discriminate.
  destruct (ascii_dec c d); [|discriminate]. intros H. apply IH in H. lia.
Qed.

(** What the hypotheses say about lengths. *)
Ltac lengths :=
  repeat match goal with
         | H : skip_space ?s = _ |- _ =>
           let L := fresh "L" in
           pose proof (skip_space_length s) as L; rewrite H in L; clear H
         | H : scan_string _ = Some (_, _) |- _ => apply scan_string_length in H
         | H : scan_number _ = Some _ |- _ => apply scan_number_length in H
         | H : String.prefix _ _ = true |- _ => apply prefix_length in H
         end;
  rewrite ?drop_length; cbn [String.length] in *.

Opaque drop.

Lemma parsed_shorter f :
  (forall s v r, value f s = Parsed v r ->
                 (String.length r < String.length s)%nat) /\
  (forall s acc v r, elements f s acc = Parsed v r ->
                     (String.length r < String.length s)%nat) /\
  (forall s acc v r, members f s acc = Parsed v r ->
                     (String.length r < String.length s)%nat).
Proof.
  induction f as [|f (IHv & IHe & IHm)]; [repeat split; discriminate|].
  repeat split.
  - intros s v r. cbn [value]. unfold mk_string.
    repeat break_step; intros H; try discriminate H;
      try (injection H as <- <-); try apply IHe in H; try apply IHm in H;
      lengths; lia.
  - intros s acc v r. cbn [elements].
    repeat break_step; intros H; try discriminate H;
      try (injection H as <- <-); try apply IHe in H;
      repeat match goal with
             | H : value f _ = Parsed _ _ |- _ => apply IHv in H
             end;
      lengths; lia.
  - intros s acc v r. cbn [members].
    repeat break_step; intros H; try discriminate H;
      try (injection H as <- <-); try apply IHm in H;
      repeat match goal with
             | H : value f _ = Parsed _ _ |- _ => apply IHv in H
             end;
      lengths; lia.
Qed.

Lemma enough_fuel f :
  (forall s, (2 * String.length s + 1 <= f)%nat -> value f s <> Fuel) /\
  (forall s acc, (2 * String.length s + 2 <= f)%nat -> elements f s acc <> Fuel) /\
  (forall s acc, (2 * String.length s + 2 <= f)%nat -> members f s acc <> Fuel).
Proof.
  induction f as [|f (IHv & IHe & IHm)]; [repeat split; intros; lia|].
  repeat split.
  - intros s Hf. cbn [value]. unfold mk_string.
    repeat break_step; try discriminate;
      first [apply IHe | apply IHm]; lengths; lia.
  - intros s acc Hf. cbn [elements].
    repeat break_step; try discriminate.
    + apply IHe.
      match goal with H : value f _ = Parsed _ _ |- _ =>
                      apply (proj1 (parsed_shorter f)) in H end.
      lengths; lia.
    + match goal with H : value f _ = Fuel |- _ => apply IHv in H; [destruct H|] end.
      lia.
  - intros s acc Hf. cbn [members].
    repeat break_step; try discriminate.
    + apply IHm.
      match goal with H : value f _ = Parsed _ _ |- _ =>
                      apply (proj1 (parsed_shorter f)) in H end.
      lengths; lia.
    + match goal with H : value f _ = Fuel |- _ => apply IHv in H; [destruct H|] end.
      lengths; lia.
Qed.

Transparent drop.

(** [json.parse] gives [None] only for input that the scanner
    rejects: with its budget the parser never stops short. *)
Lemma value_enough_fuel data : value (budget data) data <> Fuel.
Proof. apply (proj1 (enough_fuel _)). unfold budget. lia. Qed.

End json_facts.


(* ================================================================= *)
(** ** The shape of a run *)

(** Lines 166-198 touch nothing of the pipeline; they send the look-up
    under its timeout and the download without one; they close the body
    of the look-up; and they hand back an open stream: the local file
    for a [file://] URI, otherwise the body of the second request, whose
    URL is not a [file://] URI. *)
Lemma openCache_facts w conf :
  match openCache w conf 0%nat with
  | (t0, n0, o0) =>
    existsb is_pipeline t0 = false /\
    Forall (timeout_only_on_lookup (CacheAPIURL conf)) t0 /\
    bodies_before (match o0 with Exit _ => true | Return _ => false end) t0 /\
    match o0 with
    | Exit code => code = 1
    | Return (h, uri) =>
      h = stream_handle conf /\
      existsb (is_close h) t0 = false /\
      count (is_acquire h) t0 = 1%nat /\
      if strings.HasPrefix (CacheAPIURL conf) "file://"
      then uri = CacheAPIURL conf /\
           n0 = 0%nat /\ existsb is_request t0 = false
      else strings.HasPrefix uri "file://" = false /\
           http_NewRequest w uri = None /\
           n0 = 2%nat /\ In (EvRequest 1 0 uri) t0 /\
           count is_request t0 = 2%nat
    end
  end.
Proof.
  unfold openCache, getCacheDownloadURL, performRequest, http_Get, Do,
    ReadAll, closeBody, stream_handle, bodies_before.
  destruct (strings.HasPrefix (CacheAPIURL conf) "file://") eqn:Hlocal.
  - run_paths; cbn; repeat split; auto; try forall_events;
      try (now rewrite ?String.eqb_refl); try lia.
  - run_paths; cbn; repeat split; auto; try forall_events; try lia;
      try discriminate;
      try (match goal with n : nat |- _ => destruct n as [|[|n]] end;
           solve [lia | reflexivity]);
      in_events.
Qed.

(** A run whose configuration parses either never reaches the pipeline,
    or is the events up to the opening of the stream, followed by the
    wrapping of the stream, the stack check, the extraction and the last
    lines, cut short where the process exits. *)
Lemma run_shape w conf :
  stepconf_Parse w = inr conf ->
  (existsb is_pipeline (trace w) = false /\
   Forall (timeout_only_on_lookup (CacheAPIURL conf)) (trace w) /\
   bodies_before true (trace w)) \/
  exists t0 n0 uri,
    existsb is_pipeline t0 = false /\
    Forall (timeout_only_on_lookup (CacheAPIURL conf)) t0 /\
    bodies_before false t0 /\
    existsb (is_close (stream_handle conf)) t0 = false /\
    count (is_acquire (stream_handle conf)) t0 = 1%nat /\
    (if strings.HasPrefix (CacheAPIURL conf) "file://"
     then uri = CacheAPIURL conf /\
          n0 = 0%nat /\ existsb is_request t0 = false
     else strings.HasPrefix uri "file://" = false /\
          http_NewRequest w uri = None /\
          n0 = 2%nat /\ In (EvRequest 1 0 uri) t0 /\
          count is_request t0 = 2%nat) /\
    match checkStack w conf n0 with
    | (t1, n1, Exit code) => run w = (cat t0 (EvNewRestoreReader :: t1), code)
    | (t1, n1, Return _) =>
      match extract w uri n1 with
      | (t2, _, Exit code) =>
        run w = (cat t0 (EvNewRestoreReader :: t1 ++ t2), code)
      | (t2, _, Return _) =>
        run w = (cat t0 (EvNewRestoreReader :: t1 ++ t2 ++ final_events w), 0)
      end
    end.
Proof.
  intros Hconf.
  pose proof (openCache_facts w conf) as Hopen.
  unfold trace, run, main. rewrite Hconf.
  destruct (String.eqb (CacheAPIURL conf) "") eqn:Hurl.
  - left. cbn. split; [reflexivity | split; [forall_events|]].
    unfold bodies_before. cbn. repeat split; lia.
  - cbv beta iota zeta delta [bind emit logf].
    destruct (openCache w conf 0%nat) as [[t0 n0] [[h uri] | code]].
    + right. destruct Hopen as (Hq & Hto & Hb & -> & Hcl & Hacq & Hsrc).
      exists (EvPrintConf conf :: EvSetEnableDebugLog (DebugMode conf) :: t0), n0, uri.
      split; [exact Hq|]. split; [repeat constructor; exact Hto|].
      split; [now repeat apply bodies_before_cons|].
      split; [exact Hcl|].
      split; [now rewrite !count_cons_quiet by reflexivity|].
      split.
      * destruct (strings.HasPrefix (CacheAPIURL conf) "file://"); [exact Hsrc|].
        destruct Hsrc as (? & ? & ? & ? & ?). repeat split; auto.
        now do 2 right.
      * destruct (checkStack w conf n0) as [[t1 n1] [[] | code]].
        -- destruct (extract w uri n1) as [[t2 n2] [[] | code]]; reflexivity.
        -- reflexivity.
    + left. cbn. destruct Hopen as (Hq & Hto & Hb & _).
      split; [exact Hq|]. split; [repeat constructor; exact Hto|].
      now repeat apply bodies_before_cons.
Qed.

(* ================================================================= *)
(** ** The order of the pipeline steps *)

Ltac shape w conf Hconf Hq Hsrc Hrun :=
  destruct (run_shape w conf Hconf)
    as [(Hq & _ & _) | (?t0 & ?n0 & ?uri & Hq & _ & _ & _ & _ & Hsrc & Hrun)].

(** C1, as amended.  In every run with a compatibility tag configured,
    [Restore] is called only after the prefix inspector has decoded the
    first entry, and before the Metadata Extractor works: the payload of
    the first entry is read, and parsed, only after [Restore]; the
    stream is restored before it is extracted; once extraction has
    begun neither the payload is read nor a stack id parsed; and
    [Restore] is called at most once. *)
Theorem restore_precedes_payload_check w conf :
  stepconf_Parse w = inr conf ->
  (0 < String.length (strings.TrimSpace (StackID conf)))%nat ->
  precedes is_read_first_entry is_restore (trace w) /\
  precedes is_restore is_read_entry (trace w) /\
  precedes is_restore is_parse (trace w) /\
  precedes is_restore is_extract (trace w) /\
  none_after is_extract is_read_entry (trace w) /\
  none_after is_extract is_parse (trace w) /\
  (count is_restore (trace w) <= 1)%nat.
Proof.
  intros Hconf Htag. apply Nat.ltb_lt in Htag.
  shape w conf Hconf Hq Hsrc Hrun.
  - conj; try order Hq.
    rewrite count_quiet; [lia | quiet Hq].
  - revert Hrun. unfold_pipeline. rewrite Htag.
    run_paths; intros Hrun; use_run Hrun; conj; trace_goal Hq.
Qed.

Lemma restore_precedes_payload_check_witness :
  precedes is_read_first_entry is_restore (trace Samples.matching) /\
  precedes is_restore is_read_entry (trace Samples.matching) /\
  precedes is_restore is_parse (trace Samples.matching) /\
  precedes is_restore is_extract (trace Samples.matching) /\
  none_after is_extract is_read_entry (trace Samples.matching) /\
  none_after is_extract is_parse (trace Samples.matching) /\
  (count is_restore (trace Samples.matching) <= 1)%nat.
Proof.
  apply (restore_precedes_payload_check Samples.matching
           (Samples.local_conf " osx-xcode ")).
  - reflexivity.
  - vm_compute. lia.
Defined.

(** C1, as stated, fails: in the run on a local archive that carries the
    stack of the run, [Restore] is called although no payload has been
    read yet. *)
Lemma restore_after_payload_check_counterexample :
  stepconf_Parse Samples.matching = inr (Samples.local_conf " osx-xcode ") /\
  (0 < String.length (strings.TrimSpace (StackID (Samples.local_conf " osx-xcode "))))%nat /\
  ~ precedes is_read_entry is_restore (trace Samples.matching).
Proof.
  split; [reflexivity|]. split; [vm_compute; lia|].
  intros H. apply precedes_iff in H. vm_compute in H. discriminate H.
Qed.

(* ================================================================= *)
(** ** The fallback *)

Section Fallback.

Variables (w : World) (conf : Config) (err : error).
Hypothesis Hconf : stepconf_Parse w = inr conf.
Hypothesis Hreach : occurs is_extract (trace w).
Hypothesis Hfail : streamExtract w = Some err.

Ltac not_reached Hq :=
  exfalso; unfold occurs in Hreach;
  assert (existsb is_extract (trace w) = false) by quiet Hq; congruence.

Lemma fallback_single :
  count is_extract (trace w) = 1%nat /\
  count is_fallback (trace w) = 1%nat /\
  (count is_uncompress (trace w) <= 1)%nat /\
  precedes is_extract is_fallback (trace w) /\
  precedes is_fallback is_uncompress (trace w).
Proof.
  shape w conf Hconf Hq Hsrc Hrun; [not_reached Hq|].
  revert Hrun. unfold_pipeline. rewrite Hfail.
  run_paths; intros Hrun; use_run Hrun;
    try (unreached Hq Hreach); conj; trace_goal Hq.
Qed.

Lemma fallback_local :
  strings.HasPrefix (CacheAPIURL conf) "file://" = true ->
  existsb is_request (trace w) = false /\
  existsb is_copy (trace w) = false /\
  In (EvUncompressArchive (strings.TrimPrefix (CacheAPIURL conf) "file://"))
     (trace w) /\
  status w =
  exit_status (tarExtract w (strings.TrimPrefix (CacheAPIURL conf) "file://")).
Proof.
  intros Hlocal.
  shape w conf Hconf Hq Hsrc Hrun; [not_reached Hq|].
  rewrite Hlocal in Hsrc. destruct Hsrc as (-> & -> & Hreq).
  revert Hrun. unfold_pipeline. rewrite Hfail, Hlocal.
  run_paths; intros Hrun; use_run Hrun;
    try (unreached Hq Hreach); conj; trace_goal Hq.
Qed.

Lemma fallback_remote :
  strings.HasPrefix (CacheAPIURL conf) "file://" = false ->
  exists url,
    In (EvRequest 1 0 url) (trace w) /\
    In (EvDownloadCacheArchive url) (trace w) /\
    In (EvRequest 2 0 url) (trace w) /\
    count is_request (trace w) = 3%nat /\
    if download_ok w 2 url then
      In (EvCopy (Body 2) (CreatedFile "/tmp/cache-archive.tar")) (trace w) /\
      In (EvUncompressArchive "/tmp/cache-archive.tar") (trace w) /\
      status w = exit_status (tarExtract w "/tmp/cache-archive.tar")
    else
      count is_uncompress (trace w) = 0%nat /\ status w = 1.
Proof.
  intros Hlocal.
  shape w conf Hconf Hq Hsrc Hrun; [not_reached Hq|].
  rewrite Hlocal in Hsrc.
  destruct Hsrc as (Huri & Hnew & -> & Hin & Hcount).
  exists uri.
  revert Hrun. unfold_pipeline. rewrite Hfail, Huri, Hnew.
  run_paths; intros Hrun; use_run Hrun;
    try (unreached Hq Hreach); conj; trace_goal Hq.
Qed.

End Fallback.

(** C2.  Whenever the streaming extraction fails there is exactly one
    fallback attempt and no further extraction from the stream; the
    file-based routine runs at most once, after the archive has been
    obtained as a file.  For a [file://] source nothing is requested or
    copied, the routine is given the local path, and the run ends with
    status 0 or 1 as the routine succeeds or fails.  For a remote source
    the URL of the streaming download is requested afresh (the third
    request of the run, without timeout); if that download succeeds its
    body is copied to [/tmp/cache-archive.tar], the routine is given
    that path, and the status is 0 or 1 as the routine succeeds or
    fails; if the download fails the routine is not called and the
    status is 1. *)
Theorem fallback_exactly_once w conf err :
  stepconf_Parse w = inr conf ->
  occurs is_extract (trace w) ->
  streamExtract w = Some err ->
  (count is_extract (trace w) = 1%nat /\
   count is_fallback (trace w) = 1%nat /\
   (count is_uncompress (trace w) <= 1)%nat /\
   precedes is_extract is_fallback (trace w) /\
   precedes is_fallback is_uncompress (trace w)) /\
  if strings.HasPrefix (CacheAPIURL conf) "file://" then
    existsb is_request (trace w) = false /\
    existsb is_copy (trace w) = false /\
    In (EvUncompressArchive (strings.TrimPrefix (CacheAPIURL conf) "file://"))
       (trace w) /\
    status w =
    exit_status (tarExtract w (strings.TrimPrefix (CacheAPIURL conf) "file://"))
  else
    exists url,
      In (EvRequest 1 0 url) (trace w) /\
      In (EvDownloadCacheArchive url) (trace w) /\
      In (EvRequest 2 0 url) (trace w) /\
      count is_request (trace w) = 3%nat /\
      if download_ok w 2 url then
        In (EvCopy (Body 2) (CreatedFile "/tmp/cache-archive.tar")) (trace w) /\
        In (EvUncompressArchive "/tmp/cache-archive.tar") (trace w) /\
        status w = exit_status (tarExtract w "/tmp/cache-archive.tar")
      else
        count is_uncompress (trace w) = 0%nat /\ status w = 1.
Proof.
  intros Hconf Hreach Hfail. split.
  - exact (fallback_single w conf err Hconf Hreach Hfail).
  - destruct (strings.HasPrefix (CacheAPIURL conf) "file://") eqn:Hlocal.
    + exact (fallback_local w conf err Hconf Hreach Hfail Hlocal).
    + exact (fallback_remote w conf err Hconf Hreach Hfail Hlocal).
Qed.

Lemma fallback_exactly_once_witness :
  count is_fallback (trace Samples.remote_truncated) = 1%nat /\
  status Samples.remote_truncated = 0.
Proof.
  destruct (fallback_exactly_once Samples.remote_truncated
              (Samples.remote_conf "osx-xcode") Samples.truncated)
    as [(_ & Hone & _) _].
  - reflexivity.
  - reflexivity.
  - reflexivity.
  - split; [exact Hone | reflexivity].
Defined.

(* ================================================================= *)
(** ** The stack check *)

Lemma invalid_json_rejected b :
  json.Valid b = false -> parseStackID b = ("", Some SyntaxError).
Proof.
  unfold json.Valid, parseStackID, json.Unmarshal.
  destruct (json.parse b); [discriminate | reflexivity].
Qed.

Section StackCheck.

Variables (w : World) (conf : Config).
Hypothesis Hconf : stepconf_Parse w = inr conf.
Hypothesis Hstream : occurs is_wrap (trace w).
Hypothesis Htag : (0 < String.length (strings.TrimSpace (StackID conf)))%nat.

Ltac enter_check Hq Hrun :=
  destruct (run_shape w conf Hconf)
    as [(Hq & _ & _) | (?t0 & ?n0 & ?uri & Hq & _ & _ & _ & _ & _ & Hrun)];
  [ exfalso; apply quiet_no_stream in Hq; unfold occurs in Hstream; congruence
  | revert Hrun; unfold_pipeline;
    rewrite (proj2 (Nat.ltb_lt _ _) Htag) ].

Ltac finish Hq :=
  let Hrun := fresh "Hrun" in
  run_paths; intros Hrun; use_run Hrun; conj; trace_goal Hq.

Lemma inspection_failure_fatal e :
  firstEntry w = Err e ->
  status w = 1 /\ existsb is_extract (trace w) = false /\
  existsb is_fallback (trace w) = false.
Proof.
  intros Hfirst. enter_check Hq Hrun. rewrite Hfirst. finish Hq.
Qed.

Lemma no_metadata_proceeds name :
  firstEntry w = Ok name ->
  filepath.Base name <> metadata_name ->
  In no_metadata_warning (trace w) /\
  occurs is_extract (trace w) /\
  existsb is_read_entry (trace w) = false /\
  existsb is_parse (trace w) = false.
Proof.
  intros Hfirst Hname. apply String.eqb_neq in Hname.
  enter_check Hq Hrun. unfold metadata_name in Hname. rewrite Hfirst, Hname.
  finish Hq.
Qed.

Section Metadata.

Variable name : string.
Hypothesis Hfirst : firstEntry w = Ok name.
Hypothesis Hname : filepath.Base name = metadata_name.

Ltac enter_metadata Hq Hrun :=
  enter_check Hq Hrun;
  rewrite Hfirst, Hname; unfold metadata_name; rewrite String.eqb_refl.

Lemma metadata_read : occurs is_read_entry (trace w).
Proof. enter_metadata Hq Hrun. finish Hq. Qed.

Lemma payload_failure_fatal b e :
  entryPayload w = (b, Some e) ->
  status w = 1 /\ existsb is_extract (trace w) = false /\
  existsb is_fallback (trace w) = false.
Proof.
  intros Hpay. enter_metadata Hq Hrun. rewrite Hpay. finish Hq.
Qed.

Lemma parse_failure_fatal b s e :
  entryPayload w = (b, None) ->
  parseStackID b = (s, Some e) ->
  status w = 1 /\ existsb is_extract (trace w) = false /\
  existsb is_fallback (trace w) = false.
Proof.
  intros Hpay Hparse. enter_metadata Hq Hrun. rewrite Hpay, Hparse. finish Hq.
Qed.

Lemma mismatch_skips b stored :
  entryPayload w = (b, None) ->
  parseStackID b = (stored, None) ->
  stored <> strings.TrimSpace (StackID conf) ->
  status w = 0 /\ In skip_warning (trace w) /\
  existsb is_extract (trace w) = false /\
  existsb is_fallback (trace w) = false /\
  existsb is_uncompress (trace w) = false.
Proof.
  intros Hpay Hparse Hneq. apply String.eqb_neq in Hneq.
  enter_metadata Hq Hrun. rewrite Hpay, Hparse, Hneq. finish Hq.
Qed.

Lemma match_extracts b :
  entryPayload w = (b, None) ->
  parseStackID b = (strings.TrimSpace (StackID conf), None) ->
  occurs is_extract (trace w).
Proof.
  intros Hpay Hparse. enter_metadata Hq Hrun.
  rewrite Hpay, Hparse, String.eqb_refl. finish Hq.
Qed.

End Metadata.

End StackCheck.

(** C3.  In a run that has obtained the stream, with a compatibility
    tag configured, whose archive starts with the metadata entry, and in
    which the stack id stored there differs from the configured one (as
    used, that is trimmed): the process ends with status 0, the warning
    is logged, and neither the streaming extraction nor the fallback
    (download or file-based routine) is entered. *)
Theorem stack_mismatch_is_success w conf name b stored :
  stepconf_Parse w = inr conf ->
  occurs is_wrap (trace w) ->
  (0 < String.length (strings.TrimSpace (StackID conf)))%nat ->
  firstEntry w = Ok name ->
  filepath.Base name = metadata_name ->
  entryPayload w = (b, None) ->
  parseStackID b = (stored, None) ->
  stored <> strings.TrimSpace (StackID conf) ->
  status w = 0 /\
  In skip_warning (trace w) /\
  existsb is_extract (trace w) = false /\
  existsb is_fallback (trace w) = false /\
  existsb is_uncompress (trace w) = false.
Proof.
  intros Hconf Hstream Htag Hfirst Hname Hpay Hparse Hneq.
  exact (mismatch_skips w conf Hconf Hstream Htag name Hfirst Hname b stored
                        Hpay Hparse Hneq).
Qed.

Lemma stack_mismatch_is_success_witness :
  status Samples.mismatching = 0 /\
  In skip_warning (trace Samples.mismatching) /\
  existsb is_extract (trace Samples.mismatching) = false /\
  existsb is_fallback (trace Samples.mismatching) = false /\
  existsb is_uncompress (trace Samples.mismatching) = false.
Proof.
  apply (stack_mismatch_is_success Samples.mismatching
           (Samples.local_conf "osx-xcode") "archive_info.json"
           (Samples.archive_info "linux-docker") "linux-docker").
  - reflexivity.
  - reflexivity.
  - vm_compute. lia.
  - reflexivity.
  - reflexivity.
  - reflexivity.
  - reflexivity.
  - vm_compute. discriminate.
Defined.

(** C4.  In a run that has obtained the stream, with a compatibility
    tag configured: a failure to decode the first entry, a failure to
    read the payload of the metadata entry, and a failure to parse that
    payload (in particular a payload that is not valid JSON) each end
    the process with status 1 before any extraction; a first entry whose
    base name is not [archive_info.json] is no error: the warning is
    logged, the payload is neither read nor parsed, and the extraction
    is entered. *)
Theorem metadata_check_strictness w conf :
  stepconf_Parse w = inr conf ->
  occurs is_wrap (trace w) ->
  (0 < String.length (strings.TrimSpace (StackID conf)))%nat ->
  (forall e, firstEntry w = Err e ->
     status w = 1 /\ existsb is_extract (trace w) = false /\
     existsb is_fallback (trace w) = false) /\
  (forall name b e,
     firstEntry w = Ok name -> filepath.Base name = metadata_name ->
     entryPayload w = (b, Some e) ->
     status w = 1 /\ existsb is_extract (trace w) = false /\
     existsb is_fallback (trace w) = false) /\
  (forall name b,
     firstEntry w = Ok name -> filepath.Base name = metadata_name ->
     entryPayload w = (b, None) ->
     json.Valid b = false \/ snd (parseStackID b) <> None ->
     status w = 1 /\ existsb is_extract (trace w) = false /\
     existsb is_fallback (trace w) = false) /\
  (forall name,
     firstEntry w = Ok name -> filepath.Base name <> metadata_name ->
     In no_metadata_warning (trace w) /\
     occurs is_extract (trace w) /\
     existsb is_read_entry (trace w) = false /\
     existsb is_parse (trace w) = false).
Proof.
  intros Hconf Hstream Htag. conj.
  - intros e. exact (inspection_failure_fatal w conf Hconf Hstream Htag e).
  - intros name b e Hfirst Hname Hpay.
    exact (payload_failure_fatal w conf Hconf Hstream Htag name Hfirst Hname b e Hpay).
  - intros name b Hfirst Hname Hpay Hbad.
    assert (exists s e, parseStackID b = (s, Some e)) as (s & e & Hparse).
    { destruct Hbad as [Hbad | Hbad].
      - rewrite (invalid_json_rejected b Hbad). eauto.
      - destruct (parseStackID b) as [s [e|]]; [eauto | now destruct Hbad]. }
    exact (parse_failure_fatal w conf Hconf Hstream Htag name Hfirst Hname b s e
                               Hpay Hparse).
  - intros name. exact (no_metadata_proceeds w conf Hconf Hstream Htag name).
Qed.

Lemma metadata_check_strictness_witness :
  (status Samples.corrupt = 1 /\
   existsb is_extract (trace Samples.corrupt) = false /\
   existsb is_fallback (trace Samples.corrupt) = false) /\
  (In no_metadata_warning (trace Samples.untagged) /\
   occurs is_extract (trace Samples.untagged) /\
   existsb is_read_entry (trace Samples.untagged) = false /\
   existsb is_parse (trace Samples.untagged) = false).
Proof.
  assert (Htag : (0 < String.length (strings.TrimSpace
                                       (StackID (Samples.local_conf " osx-xcode "))))%nat)
    by (vm_compute; lia).
  split.
  - assert (Hs : occurs is_wrap (trace Samples.corrupt)) by (vm_compute; reflexivity).
    destruct (metadata_check_strictness Samples.corrupt
                (Samples.local_conf " osx-xcode ") eq_refl Hs Htag)
      as (Hfatal & _).
    exact (Hfatal Samples.truncated eq_refl).
  - assert (Hs : occurs is_wrap (trace Samples.untagged)) by (vm_compute; reflexivity).
    destruct (metadata_check_strictness Samples.untagged
                (Samples.local_conf " osx-xcode ") eq_refl Hs Htag)
      as (_ & _ & _ & Hproceed).
    apply (Hproceed "cache/Pods.tar" eq_refl).
    vm_compute. discriminate.
Defined.

(* ================================================================= *)
(** ** Handles *)

(** C5, as amended.  The body of every response other than the one that
    becomes the archive stream (the look-up, the fallback download) is
    closed exactly as often as it was opened, at most once; the body of
    the streaming download is closed too when it is not handed to the
    pipeline (a response other than 200); and on the fatal paths of the
    pipeline the process exits through [os.Exit(1)] with the archive
    stream opened once and never closed. *)
Theorem bodies_closed_stream_left_open w conf :
  stepconf_Parse w = inr conf ->
  (forall n, n <> 1%nat ->
     count (is_acquire (Body n)) (trace w) = count (is_close (Body n)) (trace w) /\
     (count (is_close (Body n)) (trace w) <= 1)%nat) /\
  (existsb is_wrap (trace w) = false ->
   count (is_acquire (Body 1)) (trace w) = count (is_close (Body 1)) (trace w)) /\
  (occurs is_wrap (trace w) -> status w = 1 ->
   count (is_acquire (stream_handle conf)) (trace w) = 1%nat /\
   existsb (is_close (stream_handle conf)) (trace w) = false).
Proof.
  intros Hconf.
  destruct (run_shape w conf Hconf)
    as [(Hq & _ & Hb) | (t0 & n0 & uri & Hq & _ & Hb & Hcl & Hacq & Hsrc & Hrun)].
  - destruct Hb as (H0 & H0' & H1 & H2 & H3). conj.
    + intros [|[|n]] Hn; [tauto | congruence |].
      destruct (H2 (S (S n))) as [-> ->]; [lia | split; lia].
    + intros _. now apply H3.
    + intros Hwrap. apply quiet_no_stream in Hq. unfold occurs in Hwrap. congruence.
  - destruct Hb as (H0 & H0' & H1 & H2 & _).
    assert (Hwrapped : forall t, existsb is_wrap (cat t0 (EvNewRestoreReader :: t)) = false ->
                                 False).
    { intros t. rewrite existsb_cat. cbn. rewrite orb_true_r. discriminate. }
    unfold stream_handle in *.
    destruct (strings.HasPrefix (CacheAPIURL conf) "file://") eqn:Hlocal.
    + destruct Hsrc as (-> & -> & Hreq).
      revert Hrun. unfold_pipeline. rewrite Hlocal.
      run_paths; intros Hrun; use_run Hrun;
      (conj;
        [ intros [|[|n]] Hn;
          [ rewrite !count_cat, H0; split; [reflexivity | cbn; lia]
          | congruence
          | rewrite !count_cat; destruct (H2 (S (S n))) as [-> ->]; [lia|];
            destruct n; split; cbn; lia ]
        | intros Hw; now apply Hwrapped in Hw
        | intros _ _; rewrite count_cat, existsb_cat, Hacq, Hcl; split; reflexivity ]).
    + destruct Hsrc as (Huri & Hnew & -> & Hin & Hcount).
      revert Hrun. unfold_pipeline. rewrite Huri, Hnew.
      run_paths; intros Hrun; use_run Hrun;
      (conj;
        [ intros [|[|n]] Hn;
          [ rewrite !count_cat, H0; split; [reflexivity | cbn; lia]
          | congruence
          | rewrite !count_cat; destruct (H2 (S (S n))) as [-> ->]; [lia|];
            destruct n; split; cbn; lia ]
        | intros Hw; now apply Hwrapped in Hw
        | intros _ _; rewrite count_cat, existsb_cat, Hacq, Hcl; split; reflexivity ]).
Qed.

Lemma bodies_closed_stream_left_open_witness :
  count (is_acquire (stream_handle (Samples.local_conf " osx-xcode ")))
        (trace Samples.corrupt) = 1%nat /\
  existsb (is_close (stream_handle (Samples.local_conf " osx-xcode ")))
          (trace Samples.corrupt) = false.
Proof.
  assert (Hs : occurs is_wrap (trace Samples.corrupt)) by (vm_compute; reflexivity).
  assert (He : status Samples.corrupt = 1) by (vm_compute; reflexivity).
  destruct (bodies_closed_stream_left_open Samples.corrupt
              (Samples.local_conf " osx-xcode ") eq_refl) as (_ & _ & Hopen).
  exact (Hopen Hs He).
Defined.

(** C5, as stated, fails: the run on a local archive whose first entry
    cannot be decoded ends with status 1 and leaves the archive file,
    which it opened, unclosed. *)
Lemma stream_closed_on_exit_counterexample :
  status Samples.corrupt = 1 /\
  ~ (forall h, occurs (is_acquire h) (trace Samples.corrupt) ->
               count (is_close h) (trace Samples.corrupt) = 1%nat).
Proof.
  split; [vm_compute; reflexivity|].
  intros H. specialize (H (OpenedFile "/tmp/cache.tar.gz")).
  vm_compute in H. specialize (H eq_refl). discriminate H.
Qed.

(** The same omission on the paths that succeed: the archive stream and
    the file created for the fallback download stay open to the end of
    the run, while each response body read inside one function is
    closed. *)
Lemma handles_of_the_remote_fallback_run :
  status Samples.remote_truncated = 0 /\
  map (fun h => (count (is_acquire h) (trace Samples.remote_truncated),
                 count (is_close h) (trace Samples.remote_truncated)))
      [Body 0; Body 1; Body 2; CreatedFile "/tmp/cache-archive.tar"] =
  [(1, 1); (1, 0); (1, 1); (1, 0)]%nat.
Proof. vm_compute. split; reflexivity. Qed.

(* ================================================================= *)
(** ** The blank tag *)

(** C6.  When the configured stack id is empty or only white space, the
    first entry is never inspected: no call of [readFirstEntry], no
    [Restore], no read of a payload, no parsing of a stack id; and every
    run that obtains the stream enters the extraction, whatever the
    archive holds. *)
Theorem blank_tag_skips_check w conf :
  stepconf_Parse w = inr conf ->
  only_space (StackID conf) ->
  existsb is_read_first_entry (trace w) = false /\
  existsb is_restore (trace w) = false /\
  existsb is_read_entry (trace w) = false /\
  existsb is_parse (trace w) = false /\
  (occurs is_wrap (trace w) -> occurs is_extract (trace w)).
Proof.
  intros Hconf Hblank. apply TrimSpace_only_space in Hblank.
  shape w conf Hconf Hq Hsrc Hrun.
  - conj; try quiet Hq. intros Hwrap.
    apply quiet_no_stream in Hq. unfold occurs in Hwrap. congruence.
  - revert Hrun. unfold_pipeline. rewrite Hblank. cbn [String.length Nat.ltb Nat.leb].
    run_paths; intros Hrun; use_run Hrun; conj; try intros _; trace_goal Hq.
Qed.

Lemma blank_tag_skips_check_witness :
  only_space (StackID (Samples.local_conf (String (chr 9) " "))) /\
  existsb is_read_first_entry (trace Samples.blank) = false /\
  existsb is_restore (trace Samples.blank) = false /\
  existsb is_read_entry (trace Samples.blank) = false /\
  existsb is_parse (trace Samples.blank) = false /\
  (occurs is_wrap (trace Samples.blank) -> occurs is_extract (trace Samples.blank)).
Proof.
  assert (Hblank : only_space (StackID (Samples.local_conf (String (chr 9) " "))))
    by exact (only_space_cons 9 _ eq_refl (only_space_cons 32 _ eq_refl only_space_nil)).
  split; [exact Hblank|].
  exact (blank_tag_skips_check Samples.blank
           (Samples.local_conf (String (chr 9) " ")) eq_refl Hblank).
Defined.

(* ================================================================= *)
(** ** The metadata entry *)

(** C7.  In a run that has obtained the stream, with a compatibility
    tag configured and a first entry decoded: the payload of the first
    entry is read (to look for the tag) exactly when the base name of
    the entry is [archive_info.json]; in particular it is read for
    [archive_info.json] below any directory. *)
Theorem metadata_entry_recognition w conf name :
  stepconf_Parse w = inr conf ->
  occurs is_wrap (trace w) ->
  (0 < String.length (strings.TrimSpace (StackID conf)))%nat ->
  firstEntry w = Ok name ->
  (occurs is_read_entry (trace w) <-> filepath.Base name = "archive_info.json") /\
  (forall dir, name = dir ++ "/" ++ "archive_info.json" ->
               occurs is_read_entry (trace w)).
Proof.
  intros Hconf Hstream Htag Hfirst.
  assert (Hread : filepath.Base name = metadata_name -> occurs is_read_entry (trace w))
    by exact (metadata_read w conf Hconf Hstream Htag name Hfirst).
  split; [split; [|exact Hread]|].
  - intros Hocc. destruct (string_dec (filepath.Base name) metadata_name) as [|Hne];
      [assumption|].
    destruct (no_metadata_proceeds w conf Hconf Hstream Htag name Hfirst Hne)
      as (_ & _ & Hnone & _).
    unfold occurs in Hocc. congruence.
  - intros dir ->. apply Hread. apply Base_in_directory.
Qed.

Lemma metadata_entry_recognition_witness :
  occurs is_read_entry (trace Samples.matching) <->
  filepath.Base "archive_info.json" = "archive_info.json".
Proof.
  assert (Hs : occurs is_wrap (trace Samples.matching)) by (vm_compute; reflexivity).
  assert (Htag : (0 < String.length (strings.TrimSpace
                                       (StackID (Samples.local_conf " osx-xcode "))))%nat)
    by (vm_compute; lia).
  destruct (metadata_entry_recognition Samples.matching
              (Samples.local_conf " osx-xcode ") "archive_info.json"
              eq_refl Hs Htag eq_refl) as [Hiff _].
  exact Hiff.
Defined.

(* ================================================================= *)
(** ** Timeouts *)

(** C9.  Every request of a run is either its first request, sent to the
    cache API URL by a client whose timeout is 20 seconds (the look-up
    of the download URL), or a later request, sent without timeout: the
    streaming download and the fallback download. *)
Theorem timeout_only_on_lookup_request w conf :
  stepconf_Parse w = inr conf ->
  Forall (timeout_only_on_lookup (CacheAPIURL conf)) (trace w).
Proof.
  intros Hconf.
  destruct (run_shape w conf Hconf)
    as [(_ & Hto & _) | (t0 & n0 & uri & Hq & Hto & _ & _ & _ & Hsrc & Hrun)];
    [exact Hto|].
  destruct (strings.HasPrefix (CacheAPIURL conf) "file://") eqn:Hlocal.
  - destruct Hsrc as (-> & -> & _).
    revert Hrun. unfold_pipeline. rewrite Hlocal.
    run_paths; intros Hrun; use_run Hrun;
      (apply Forall_cat; [exact Hto | forall_events]).
  - destruct Hsrc as (Huri & Hnew & -> & _).
    revert Hrun. unfold_pipeline. rewrite Huri, Hnew.
    run_paths; intros Hrun; use_run Hrun;
      (apply Forall_cat; [exact Hto | forall_events]).
Qed.

Lemma timeout_only_on_lookup_request_witness :
  Forall (timeout_only_on_lookup "https://api.example/cache")
         (trace Samples.remote_truncated) /\
  filter is_request (trace Samples.remote_truncated) =
  [EvRequest 0 (20 * time.Second) "https://api.example/cache";
   EvRequest 1 0 "https://cache.example/archive.tar.gz";
   EvRequest 2 0 "https://cache.example/archive.tar.gz"].
Proof.
  split.
  - exact (timeout_only_on_lookup_request Samples.remote_truncated
             (Samples.remote_conf "osx-xcode") eq_refl).
  - vm_compute. reflexivity.
Defined.

(* ================================================================= *)
(** ** The comparison of the stack ids *)

(** C10.  The stack id of the archive, as parsed, is compared by plain
    string equality with the configured stack id stripped of the white
    space around it: when the two are equal the extraction is entered;
    when they differ the run is skipped (status 0, the warning, no
    extraction), also when they differ only by white space around the
    stored id or only by the case of letters. *)
Theorem stack_id_comparison_asymmetry w conf name b stored :
  stepconf_Parse w = inr conf ->
  occurs is_wrap (trace w) ->
  (0 < String.length (strings.TrimSpace (StackID conf)))%nat ->
  firstEntry w = Ok name ->
  filepath.Base name = metadata_name ->
  entryPayload w = (b, None) ->
  parseStackID b = (stored, None) ->
  (stored = strings.TrimSpace (StackID conf) -> occurs is_extract (trace w)) /\
  (stored <> strings.TrimSpace (StackID conf) ->
   status w = 0 /\ In skip_warning (trace w) /\
   existsb is_extract (trace w) = false) /\
  (stored <> strings.TrimSpace (StackID conf) ->
   strings.TrimSpace stored = strings.TrimSpace (StackID conf) \/
   to_lower stored = to_lower (strings.TrimSpace (StackID conf)) ->
   status w = 0 /\ In skip_warning (trace w) /\
   existsb is_extract (trace w) = false).
Proof.
  intros Hconf Hstream Htag Hfirst Hname Hpay Hparse.
  assert (Hskip : stored <> strings.TrimSpace (StackID conf) ->
                  status w = 0 /\ In skip_warning (trace w) /\
                  existsb is_extract (trace w) = false).
  { intros Hneq.
    destruct (mismatch_skips w conf Hconf Hstream Htag name Hfirst Hname b stored
                             Hpay Hparse Hneq) as (H0 & Hw & He & _).
    auto. }
  conj.
  - intros ->.
    exact (match_extracts w conf Hconf Hstream Htag name Hfirst Hname b Hpay Hparse).
  - exact Hskip.
  - intros Hneq _. exact (Hskip Hneq).
Qed.

Lemma stack_id_comparison_asymmetry_witness :
  strings.TrimSpace " osx-xcode" = strings.TrimSpace " osx-xcode " /\
  status (Samples.world (Samples.local_conf " osx-xcode ") " osx-xcode") = 0 /\
  In skip_warning
     (trace (Samples.world (Samples.local_conf " osx-xcode ") " osx-xcode")) /\
  existsb is_extract
    (trace (Samples.world (Samples.local_conf " osx-xcode ") " osx-xcode")) = false.
Proof.
  assert (Htag : (0 < String.length (strings.TrimSpace
                                       (StackID (Samples.local_conf " osx-xcode "))))%nat)
    by (vm_compute; lia).
  assert (Hs : occurs is_wrap
                 (trace (Samples.world (Samples.local_conf " osx-xcode ") " osx-xcode")))
    by (vm_compute; reflexivity).
  assert (Hspace : strings.TrimSpace " osx-xcode" = strings.TrimSpace " osx-xcode ")
    by (vm_compute; reflexivity).
  assert (Hparse : parseStackID (Samples.archive_info " osx-xcode") = (" osx-xcode", None))
    by (vm_compute; reflexivity).
  split; [exact Hspace|].
  destruct (stack_id_comparison_asymmetry
              (Samples.world (Samples.local_conf " osx-xcode ") " osx-xcode")
              (Samples.local_conf " osx-xcode ") "archive_info.json"
              (Samples.archive_info " osx-xcode") " osx-xcode"
              eq_refl Hs Htag eq_refl eq_refl eq_refl Hparse)
    as (_ & _ & Hskip).
  apply Hskip; [vm_compute; discriminate | left; exact Hspace].
Defined.

(** The same for a difference of case only. *)
Lemma stack_id_case_sensitive_example :
  to_lower "OSX-Xcode" = to_lower (strings.TrimSpace " osx-xcode ") /\
  run (Samples.world (Samples.local_conf " osx-xcode ") "OSX-Xcode") =
  ([EvPrintConf (Samples.local_conf " osx-xcode "); EvSetEnableDebugLog false;
    EvPrintln; EvLog LInfo "Using local cache archive" [];
    EvAcquire (OpenedFile "/tmp/cache.tar.gz"); EvNewRestoreReader;
    EvPrintln; EvLog LInfo "Checking archive and current stacks" [];
    EvLog LPrint "current stack id: %s" [AStr "osx-xcode"];
    EvReadFirstEntry; EvRestore; EvReadEntry;
    EvParseStackID (Samples.archive_info "OSX-Xcode");
    EvLog LPrint "archive stack id: %s" [AStr "OSX-Xcode"];
    EvLog LWarn "Cache was created on stack: %s, current stack: %s"
          [AStr "OSX-Xcode"; AStr "osx-xcode"];
    skip_warning], 0).
Proof. vm_compute. split; reflexivity. Qed.

(* ================================================================= *)
(** ** [parseStackID] *)

Lemma object_saved name m :
  forall field saved,
    snd (json.object name m field saved) = None <->
    saved = None /\ fits name (json.Object m) = true.
Proof.
  induction m as [|[key v] m IH]; intros field saved; cbn [json.object fits forallb fst snd].
  - intuition.
  - cbn [fits] in IH.
    destruct (json.selects name key); cbn [negb orb andb].
    + destruct v; rewrite IH; cbn [andb];
        try tauto;
        (split; [intros [Hs _]; destruct saved; discriminate Hs
                | intros [_ Hf]; discriminate Hf]).
    + apply IH.
Qed.

Lemma object_absent name m :
  forall field saved,
    absent name m = true -> json.object name m field saved = (field, saved).
Proof.
  induction m as [|[key v] m IH]; intros field saved; cbn [json.object absent forallb fst];
    [reflexivity|].
  intros H. apply andb_true_iff in H as [Hk Hm].
  apply negb_true_iff in Hk. rewrite Hk. now apply IH.
Qed.

Lemma decode_error name v field :
  snd (json.decode name v field) <> None <-> fits name v = false.
Proof.
  destruct v as [| | | | |m];
    try (cbn; split; [reflexivity | discriminate]);
    try (cbn; split; [intros H; now destruct H | discriminate]).
  cbn [json.decode].
  pose proof (object_saved name m field None) as H.
  destruct (snd (json.object name m field None)) as [e|];
    destruct (fits name (json.Object m));
    intuition (try discriminate; try congruence).
Qed.

(** C8, as amended.  [parseStackID] returns an error exactly when the
    bytes are not valid JSON, or are valid JSON that does not fit the
    struct: a value that is neither [null] nor an object, or an object
    in which a member selecting [stack_id] (by the exact name or by a
    name equal under case folding) holds something other than a string
    or [null].  With an error the returned string is empty.  On a valid
    JSON object in which no member selects [stack_id] the result is the
    empty string and no error, so that absence shows in the error value
    only. *)
Theorem parseStackID_contract b :
  (snd (parseStackID b) <> None <->
   json.Valid b = false \/
   exists v, json.parse b = Some v /\ fits "stack_id" v = false) /\
  (snd (parseStackID b) <> None -> fst (parseStackID b) = "") /\
  (forall m, json.parse b = Some (json.Object m) ->
             absent "stack_id" m = true ->
             parseStackID b = ("", None)).
Proof.
  unfold parseStackID, json.Unmarshal, json.Valid.
  destruct (json.parse b) as [v|] eqn:Hparse.
  - pose proof (decode_error "stack_id" v "") as Hdec.
    destruct (json.decode "stack_id" v "") as [s [e|]] eqn:Hd; cbn [fst snd] in *; conj.
    + split; [intros _; right; exists v; split; [reflexivity | now apply Hdec]
             | discriminate].
    + reflexivity.
    + intros m [= ->] Habs. cbn [json.decode] in Hd.
      rewrite (object_absent _ _ _ _ Habs) in Hd. discriminate Hd.
    + split; [intros H; now destruct H|].
      intros [H | (v' & [= <-] & Hfit)]; [discriminate H|].
      apply Hdec in Hfit. now destruct Hfit.
    + intros H; now destruct H.
    + intros m [= ->] Habs. cbn [json.decode] in Hd.
      rewrite (object_absent _ _ _ _ Habs) in Hd. now injection Hd as <-.
  - cbn [fst snd]. conj.
    + split; [intros _; now left | discriminate].
    + reflexivity.
    + discriminate.
Qed.

(** C8, as stated, fails: the two bytes of the empty array are valid
    JSON, and [parseStackID] returns an error for them. *)
Lemma parseStackID_error_iff_invalid_counterexample :
  ~ (snd (parseStackID "[]") <> None <-> json.Valid "[]" = false).
Proof.
  intros [H _].
  assert (Hvalid : json.Valid "[]" = false) by (apply H; vm_compute; discriminate).
  vm_compute in Hvalid. discriminate Hvalid.
Qed.

(** Further inputs: a number where the stack id should be; a key that
    selects the field under case folding; an object without the field;
    [null]. *)
Lemma parseStackID_examples :
  parseStackID ("{" ++ quoted "stack_id" ++ ":5}")
  = ("", Some (UnmarshalTypeError "number")) /\
  parseStackID ("{" ++ quoted "Stack_ID" ++ ":" ++ quoted "osx-xcode" ++ "}")
  = ("osx-xcode", None) /\
  parseStackID ("{" ++ quoted "stack" ++ ":" ++ quoted "osx-xcode" ++ "}")
  = ("", None) /\
  parseStackID "null" = ("", None) /\
  parseStackID (Samples.archive_info "osx-xcode") = ("osx-xcode", None) /\
  parseStackID "{" = ("", Some SyntaxError).
Proof. vm_compute. repeat split. Qed.

(* ================================================================= *)
(** ** The scenarios of the decision table, run *)

(** The metadata entry is there but its body is not JSON: fatal. *)
Lemma scenario_invalid_metadata :
  run (Samples.with_entryPayload Samples.matching ("{stack_id", None)) =
  ([EvPrintConf (Samples.local_conf " osx-xcode "); EvSetEnableDebugLog false;
    EvPrintln; EvLog LInfo "Using local cache archive" [];
    EvAcquire (OpenedFile "/tmp/cache.tar.gz"); EvNewRestoreReader;
    EvPrintln; EvLog LInfo "Checking archive and current stacks" [];
    EvLog LPrint "current stack id: %s" [AStr "osx-xcode"];
    EvReadFirstEntry; EvRestore; EvReadEntry; EvParseStackID "{stack_id";
    EvLog LError "Failed to parse first archive entry: %s" [AErr SyntaxError]],
   1).
Proof. vm_compute. reflexivity. Qed.

(** The stream breaks off and the tar tool fails too: fatal, after one
    fallback attempt, with both causes logged. *)
Lemma scenario_fallback_fails :
  let w := Samples.with_tarExtract Samples.remote_truncated
             (fun _ => Some (Foreign "exit status 2")) in
  status w = 1 /\
  filter (fun e => is_extract e || is_fallback e || is_uncompress e) (trace w) =
  [EvExtractCacheArchive;
   EvDownloadCacheArchive "https://cache.example/archive.tar.gz";
   EvUncompressArchive "/tmp/cache-archive.tar"] /\
  In (EvLog LWarn "Failed to uncompress cache archive stream: %s"
            [AErr Samples.truncated]) (trace w) /\
  In (EvLog LError "Fallback failed, unable to uncompress cache archive file: %s"
            [AErr (Foreign "exit status 2")]) (trace w).
Proof.
  cbv zeta. conj; vm_compute; try reflexivity;
    repeat (try (left; reflexivity); right).
Qed.

(** An archive without the metadata entry, and one written on the stack
    of the run, are extracted; without a stack id nothing is checked. *)
Lemma scenario_extracted :
  (status Samples.untagged = 0 /\ count is_extract (trace Samples.untagged) = 1%nat) /\
  (status Samples.matching = 0 /\ count is_extract (trace Samples.matching) = 1%nat) /\
  (status Samples.blank = 0 /\ count is_extract (trace Samples.blank) = 1%nat /\
   count is_read_first_entry (trace Samples.blank) = 0%nat).
Proof. vm_compute. repeat split. Qed.

(* ================================================================= *)
(** ** The three helpers of [main] *)

Ltac unfold_helpers :=
  unfold getCacheDownloadURL, performRequest, downloadCacheArchive, http_Get,
    Do, ReadAll, closeBody, cacheArchivePath.

Ltac inj_pairs :=
  repeat match goal with
         | H : (_, _) = (_, _) |- _ => injection H as ? ?; subst
         | H : Ok _ = Ok _ |- _ => injection H as ?; subst
         | H : Return _ = Return _ |- _ => injection H as ?; subst
         | H : Some _ = Some _ |- _ => injection H as ?; subst
         end.

Ltac destruct_hyps :=
  repeat match goal with
         | H : _ /\ _ |- _ => destruct H
         | H : exists _, _ |- _ => destruct H
         end.

Lemma status_in_range z :
  (z <? 200) || (202 <? z) = false <-> 200 <= z <= 202.
Proof.
  rewrite orb_false_iff, !Z.ltb_ge. lia.
Qed.

Lemma status_200 z : negb (z =? 200) = false <-> z = 200.
Proof. rewrite negb_false_iff. apply Z.eqb_eq. Qed.

(** X1.  [getCacheDownloadURL] returns a URL exactly when the look-up
    succeeds in full; the URL is then the [download_url] of the answer
    and is not empty. *)
Theorem getCacheDownloadURL_succeeds_iff w u n d :
  (exists t n', getCacheDownloadURL w u n = (t, n', Return (Ok d))) <->
  lookup_succeeds w u n d.
Proof.
  unfold lookup_succeeds. split.
  - intros (t & n' & H). revert H. unfold_helpers.
    run_paths; intros H; try discriminate H;
      injection H as <- <- <-;
      repeat match goal with
             | H : (_ =? _)%string = false |- _ => apply String.eqb_neq in H
             | H : (_ <? _) = false |- _ => apply Z.ltb_ge in H
             end;
      conj; auto; eexists _, _; conj; eauto; lia.
  - intros (Hnew & Hscheme & resp & body & Hrt & Hread & Hst & Hjson & Hd).
    apply status_in_range in Hst. apply String.eqb_neq in Hd.
    unfold_helpers. rewrite Hnew.
    cbv beta iota zeta delta [bind ret emit next_request].
    rewrite Hscheme, Hrt.
    cbv beta iota zeta delta [bind ret emit next_request].
    rewrite Hread. cbv beta iota zeta. rewrite Hst, Hjson, Hd.
    destruct (BodyClose resp); cbv beta iota zeta delta [bind ret emit logf app];
      eexists _, _; reflexivity.
Qed.

(** X2.  The status is checked before the body is parsed: a look-up
    answered with a status outside 200..202 gives the error "build cache
    not found" whatever the body holds, after the body has been read and
    closed. *)
Theorem getCacheDownloadURL_rejects_status w u n resp body :
  http_NewRequest w u = None ->
  strings.HasPrefix u "file://" = false ->
  roundTrip w n u = Ok resp ->
  BodyRead resp = (body, None) ->
  StatusCode resp < 200 \/ 202 < StatusCode resp ->
  exists t,
    getCacheDownloadURL w u n =
    (t, S n,
     Return (Err (Errorf
       "build cache not found: probably cache not initialised yet (first cache push initialises the cache), nothing to worry about ;)"
       []))) /\
    count (is_close (Body n)) t = 1%nat.
Proof.
  intros Hnew Hscheme Hrt Hread Hst.
  assert (Hb : (StatusCode resp <? 200) || (202 <? StatusCode resp) = true).
  { apply orb_true_iff. rewrite !Z.ltb_lt. exact Hst. }
  unfold_helpers. rewrite Hnew.
  cbv beta iota zeta delta [bind ret emit next_request].
  rewrite Hscheme, Hrt.
  cbv beta iota zeta delta [bind ret emit next_request].
  rewrite Hread. cbv beta iota zeta. rewrite Hb.
  destruct (BodyClose resp); cbv beta iota zeta delta [bind ret emit logf app];
    eexists; (split; [reflexivity|]); cbn; now rewrite Nat.eqb_refl.
Qed.

Lemma getCacheDownloadURL_rejects_status_witness :
  exists t,
    getCacheDownloadURL uninitialised "https://api.example/cache" 0%nat =
    (t, 1%nat,
     Return (Err (Errorf
       "build cache not found: probably cache not initialised yet (first cache push initialises the cache), nothing to worry about ;)"
       []))) /\
    count (is_close (Body 0%nat)) t = 1%nat.
Proof.
  apply (getCacheDownloadURL_rejects_status uninitialised
           "https://api.example/cache" 0%nat not_found_response "not found");
    try reflexivity.
  right. cbn. lia.
Defined.

(** X3.  [getCacheDownloadURL] never ends the process.  It sends one
    request, under the timeout of 20 seconds, exactly when the request
    can be built, and none otherwise; the body of a response is read
    once and closed exactly once on every return path; no other handle
    is touched. *)
Theorem getCacheDownloadURL_discipline w u n :
  match getCacheDownloadURL w u n with
  | (t, n', o) =>
    (exists r, o = Return r) /\
    filter is_request t =
    match http_NewRequest w u with
    | None => [EvRequest n (20 * time.Second) u]
    | Some _ => []
    end /\
    n' = (n + List.length (filter is_request t))%nat /\
    count (is_acquire (Body n)) t = count (is_close (Body n)) t /\
    count (is_acquire (Body n)) t = count is_read_all t /\
    (count (is_close (Body n)) t <= 1)%nat /\
    (forall h, h <> Body n ->
               existsb (is_acquire h) t = false /\ existsb (is_close h) t = false) /\
    existsb is_error t = false
  end.
Proof.
  unfold_helpers.
  run_paths; cbn; rewrite ?Nat.eqb_refl; cbn; conj; eauto; try lia;
    intros [p|m|p] Hh; cbn; auto;
    (destruct (Nat.eqb_spec m n) as [->|]; [congruence | auto]).
Qed.

(** X4.  [performRequest] never ends the process and sends at most one
    request, without timeout.  It returns a stream exactly when the
    request is answered with a 200; the stream is the body of that
    response, neither read nor closed.  On any other status the body is
    read and closed exactly once and the result is an error; after a
    successful read it carries the status and the body. *)
Theorem performRequest_result w u n :
  match performRequest w u n with
  | (t, n', o) =>
    (exists r, o = Return r) /\
    (forall h, o = Return (Ok h) <-> h = Body n /\ exists resp, answers_200 w u n resp) /\
    (forall h, o = Return (Ok h) ->
               count (is_acquire h) t = 1%nat /\ existsb (is_close h) t = false /\
               existsb is_read_all t = false) /\
    (forall e, o = Return (Err e) ->
               count (is_acquire (Body n)) t = count (is_close (Body n)) t /\
               count (is_acquire (Body n)) t = count is_read_all t) /\
    (forall resp body,
       http_NewRequest w u = None -> strings.HasPrefix u "file://" = false ->
       roundTrip w n u = Ok resp -> StatusCode resp <> 200 ->
       BodyRead resp = (body, None) ->
       o = Return (Err (Errorf "non success response code: %d, body: %s"
                               [AInt (StatusCode resp); AStr body]))) /\
    Forall (fun e => match e with EvRequest m d u' => m = n /\ d = 0 /\ u' = u
                             | _ => True end) t
  end.
Proof.
  unfold answers_200. unfold_helpers.
  run_paths;
    repeat match goal with
           | H : (_ =? _) = true |- _ => apply Z.eqb_eq in H
           | H : (_ =? _) = false |- _ => apply Z.eqb_neq in H
           end;
    repeat split; intros; destruct_hyps; inj_pairs;
    try discriminate; try congruence;
    cbn; rewrite ?Nat.eqb_refl; try reflexivity;
    try (eexists; repeat split; eauto; fail);
    try (repeat constructor; auto; fail).
Qed.

(** X5.  [downloadCacheArchive] never ends the process.  For a
    [file://] URI it does nothing but strip the prefix: nothing is
    opened or requested, and the path is not checked.  Otherwise it
    sends one request without timeout and returns a path exactly when
    the answer is a 200, the local file can be created and the copy
    succeeds; the path is then [/tmp/cache-archive.tar] and the body was
    copied there.  The body of a response is closed exactly once on
    every return path. *)
Theorem downloadCacheArchive_result w url n :
  match downloadCacheArchive w url n with
  | (t, n', o) =>
    (exists r, o = Return r) /\
    (strings.HasPrefix url "file://" = true ->
     t = [EvDownloadCacheArchive url] /\ n' = n /\
     o = Return (Ok (strings.TrimPrefix url "file://"))) /\
    (strings.HasPrefix url "file://" = false ->
     forall p, o = Return (Ok p) <->
               p = "/tmp/cache-archive.tar" /\
               (exists resp, answers_200 w url n resp) /\
               fs_Create w "/tmp/cache-archive.tar" = None /\
               copyBody w n = None) /\
    (forall p, o = Return (Ok p) -> strings.HasPrefix url "file://" = false ->
               In (EvCopy (Body n) (CreatedFile p)) t) /\
    count (is_acquire (Body n)) t = count (is_close (Body n)) t /\
    (count (is_close (Body n)) t <= 1)%nat /\
    Forall (fun e => match e with EvRequest m d u' => m = n /\ d = 0 /\ u' = url
                             | _ => True end) t
  end.
Proof.
  unfold answers_200. unfold_helpers.
  run_paths;
    repeat match goal with
           | H : (_ =? _) = true |- _ => apply Z.eqb_eq in H
           | H : (_ =? _) = false |- _ => apply Z.eqb_neq in H
           end;
    repeat split; intros; destruct_hyps; inj_pairs;
    try discriminate; try congruence;
    cbn; rewrite ?Nat.eqb_refl; try reflexivity; try lia;
    try (eexists; repeat split; eauto; fail);
    try (repeat constructor; auto; fail);
    try (in_events; fail).
Qed.

(* ================================================================= *)
(** ** The whole run, stage by stage *)

Lemma ends_with_app p a t :
  t <> [] -> ends_with p (a ++ t)%list = ends_with p t.
Proof.
  intros Ht. induction a as [|e a IH]; [reflexivity|].
  cbn [app ends_with]. destruct (a ++ t)%list eqn:E; [|exact IH].
  apply app_eq_nil in E. tauto.
Qed.

Lemma ends_with_cat p a e t :
  ends_with p (cat a (e :: t)) = ends_with p (e :: t).
Proof. apply ends_with_app. discriminate. Qed.

Lemma filter_quiet (p : Event -> bool) t : existsb p t = false -> filter p t = [].
Proof.
  induction t as [|e t IH]; cbn; [reflexivity|].
  intros H. apply orb_false_iff in H as [-> Ht]. now apply IH.
Qed.

Lemma filter_cat (p : Event -> bool) a t :
  filter p (cat a t) = (filter p a ++ filter p t)%list.
Proof. apply filter_app. Qed.

Lemma existsb_count0 (p : Event -> bool) t :
  existsb p t = false <-> count p t = 0%nat.
Proof.
  split; [apply count_quiet|].
  unfold count. induction t as [|e t IH]; cbn; [reflexivity|].
  destruct (p e); cbn; [discriminate | exact IH].
Qed.

(** What a run is, stage by stage: the failure of the configuration,
    the run without a cache URL, the run that ends while the stream is
    opened, and the run through the pipeline. *)
Lemma run_stages w :
  match stepconf_Parse w with
  | inl text => run w = ([EvLog LError text []], 1)
  | inr conf =>
    if String.eqb (CacheAPIURL conf) "" then
      run w =
      ((head_events conf ++
        [EvLog LWarn "No Cache API URL specified, there's no cache to use, exiting." []])%list,
       0)
    else
      match openCache w conf 0%nat with
      | (t0, n0, Exit code) => run w = (cat (head_events conf) t0, code)
      | (t0, n0, Return (h, uri)) =>
        match checkStack w conf n0 with
        | (t1, n1, Exit code) =>
          run w = (cat (cat (head_events conf) t0) (EvNewRestoreReader :: t1), code)
        | (t1, n1, Return _) =>
          match extract w uri n1 with
          | (t2, _, Exit code) =>
            run w = (cat (cat (head_events conf) t0)
                         (EvNewRestoreReader :: t1 ++ t2), code)
          | (t2, _, Return _) =>
            run w = (cat (cat (head_events conf) t0)
                         (EvNewRestoreReader :: t1 ++ t2 ++ final_events w), 0)
          end
        end
      end
  end.
Proof.
  unfold run, main.
  destruct (stepconf_Parse w) as [text | conf]; [reflexivity|].
  destruct (String.eqb (CacheAPIURL conf) ""); [reflexivity|].
  cbv beta iota zeta delta [bind emit logf].
  destruct (openCache w conf 0%nat) as [[t0 n0] [[h uri] | code]]; [|reflexivity].
  destruct (checkStack w conf n0) as [[t1 n1] [[] | code]]; [|reflexivity].
  destruct (extract w uri n1) as [[t2 n2] [[] | code]]; [|reflexivity].
  reflexivity.
Qed.

(** Lines 166-198, for the further properties. *)
Lemma openCache_logs w conf :
  match openCache w conf 0%nat with
  | (t0, n0, o0) =>
    t0 <> [] /\
    existsb is_pipeline t0 = false /\
    existsb is_done t0 = false /\
    existsb is_create t0 = false /\
    Forall (request_provenance w conf) t0 /\
    (count is_request t0 <= 2)%nat /\
    (strings.HasPrefix (CacheAPIURL conf) "file://" = true ->
     existsb is_request t0 = false) /\
    match o0 with
    | Exit code =>
      code = 1 /\ ends_with is_error t0 = true /\ count is_error t0 = 1%nat /\
      (strings.HasPrefix (CacheAPIURL conf) "file://" = true ->
       fs_Open w (strings.TrimPrefix (CacheAPIURL conf) "file://") <> None)
    | Return (h, uri) =>
      count is_error t0 = 0%nat /\
      if strings.HasPrefix (CacheAPIURL conf) "file://"
      then uri = CacheAPIURL conf /\ n0 = 0%nat /\
           fs_Open w (strings.TrimPrefix (CacheAPIURL conf) "file://") = None
      else n0 = 2%nat /\
           lookup_succeeds w (CacheAPIURL conf) 0 uri /\
           (exists resp, answers_200 w uri 1 resp)
    end
  end.
Proof.
  unfold openCache, lookup_succeeds, answers_200, request_provenance.
  unfold_helpers.
  destruct (strings.HasPrefix (CacheAPIURL conf) "file://") eqn:Hlocal.
  - run_paths; cbn; repeat split; intros; try discriminate; try congruence;
      auto; try (repeat constructor; fail).
  - run_paths;
      repeat match goal with
             | H : (_ =? _) = true |- _ => apply Z.eqb_eq in H
             | H : (_ =? _)%string = false |- _ => apply String.eqb_neq in H
             | H : (_ <? _) = false |- _ => apply Z.ltb_ge in H
             end;
      cbn; repeat split; intros; try discriminate; try congruence; auto;
      try lia;
      try (eexists; repeat split; eauto; fail);
      try (eexists _, _; repeat split; eauto; lia);
      repeat (apply Forall_cons;
              [cbn; first [exact I
                          | left; repeat split; reflexivity
                          | right; repeat split; auto;
                            eexists _, _; repeat split; eauto; lia] |]);
      try apply Forall_nil.
Qed.

(* ================================================================= *)
(** ** Properties of every run *)

Lemma existsb_cat_quiet p a t :
  existsb p a = false -> existsb p (cat a t) = existsb p t.
Proof. intros H. now rewrite existsb_cat, H. Qed.

Lemma count_cat_quiet p a t :
  existsb p a = false -> count p (cat a t) = count p t.
Proof. intros H. now rewrite count_cat, (count_quiet p a H). Qed.

Lemma filter_cat_quiet (p : Event -> bool) a t :
  existsb p a = false -> filter p (cat a t) = filter p t.
Proof. intros H. now rewrite filter_cat, (filter_quiet p a H). Qed.

(** The events of a run before the pipeline ([head_events] and those of
    lines 166-198), as far as the further properties need them. *)
Lemma before_pipeline w conf :
  match openCache w conf 0%nat with
  | (t0, n0, o0) =>
    let pre := cat (head_events conf) t0 in
    existsb is_pipeline pre = false /\
    existsb is_done pre = false /\
    existsb is_create pre = false /\
    Forall (request_provenance w conf) pre /\
    (count is_request pre <= 2)%nat /\
    (strings.HasPrefix (CacheAPIURL conf) "file://" = true ->
     existsb is_request pre = false) /\
    match o0 with
    | Exit code =>
      code = 1 /\ ends_with is_error pre = true /\ count is_error pre = 1%nat /\
      (strings.HasPrefix (CacheAPIURL conf) "file://" = true ->
       fs_Open w (strings.TrimPrefix (CacheAPIURL conf) "file://") <> None)
    | Return (h, uri) =>
      existsb is_error pre = false /\
      if strings.HasPrefix (CacheAPIURL conf) "file://"
      then uri = CacheAPIURL conf /\ n0 = 0%nat /\
           fs_Open w (strings.TrimPrefix (CacheAPIURL conf) "file://") = None
      else n0 = 2%nat /\
           lookup_succeeds w (CacheAPIURL conf) 0 uri /\
           (exists resp, answers_200 w uri 1 resp)
    end
  end.
Proof.
  pose proof (openCache_logs w conf) as H.
  assert (Hhead : forall t, Forall (request_provenance w conf) t ->
                            Forall (request_provenance w conf)
                                   (cat (head_events conf) t))
    by (intros t Ht; apply Forall_cat; [repeat constructor | exact Ht]).
  assert (Hcount : forall p t, existsb p (head_events conf) = false ->
                               count p (cat (head_events conf) t) = count p t)
    by (intros p t Hp; apply count_cat_quiet; exact Hp).
  assert (Hex : forall p t, existsb p (head_events conf) = false ->
                            existsb p (cat (head_events conf) t) = existsb p t)
    by (intros p t Hp; apply existsb_cat_quiet; exact Hp).
  destruct (openCache w conf 0%nat) as [[t0 n0] [[h uri] | code]]; cbv zeta;
    destruct H as (Hne & Hq & Hdone & Hcreate & Hprov & Hreqs & Hloc & H).
  - destruct H as (Herr & Hsrc). apply existsb_count0 in Herr.
    rewrite !Hex, !Hcount by reflexivity. auto 10.
  - destruct H as (-> & Hends & Herr & Hopen).
    rewrite !Hex, !Hcount by reflexivity.
    unfold cat at 1. rewrite (ends_with_app _ _ _ Hne). auto 12.
Qed.

(** Brings up the stages of the run of [w] and what is known of the
    events before the pipeline, which are kept as [pre]. *)
Ltac stages_of w c Hrun :=
  destruct (String.eqb (CacheAPIURL c) "") eqn:?Hurl;
  [ | let Hpre := fresh "Hpre" in
      pose proof (before_pipeline w c) as Hpre;
      destruct (openCache w c 0%nat) as [[?t0 ?n0] [[?h ?uri] | ?code]];
      cbv zeta in Hpre;
      match type of Hpre with
      | context [cat (head_events c) ?t] =>
        generalize dependent (cat (head_events c) t)
      end;
      intros ?pre Hrun Hpre;
      [ destruct Hpre as (?Hq & ?Hdone & ?Hcreate & ?Hprov & ?Hreqs
                          & ?Hloc & ?Herr & ?Hsrc)
      | destruct Hpre as (?Hq & ?Hdone & ?Hcreate & ?Hprov & ?Hreqs
                          & ?Hloc & -> & ?Hends & ?Herr & ?Hopen) ] ].

Ltac stages w Hrun :=
  pose proof (run_stages w) as Hrun;
  destruct (stepconf_Parse w) as [?text | ?conf] eqn:?Hconf;
  [ | match goal with
      | Hc : stepconf_Parse w = inr ?c |- _ => stages_of w c Hrun
      end ].

(** The same for a run whose configuration is known. *)
Ltac stages_at w c Hc Hrun :=
  pose proof (run_stages w) as Hrun; rewrite Hc in Hrun; stages_of w c Hrun.

Ltac through_pipeline Hrun :=
  revert Hrun; unfold_pipeline; run_paths; intros Hrun; use_run Hrun.

Ltac quiet_facts Hq t0 :=
  assert (existsb is_wrap t0 = false) by quiet Hq;
  assert (existsb is_read_first_entry t0 = false) by quiet Hq;
  assert (existsb is_restore t0 = false) by quiet Hq;
  assert (existsb is_read_entry t0 = false) by quiet Hq;
  assert (existsb is_parse t0 = false) by quiet Hq;
  assert (existsb is_extract t0 = false) by quiet Hq;
  assert (existsb is_fallback t0 = false) by quiet Hq;
  assert (existsb is_copy t0 = false) by quiet Hq;
  assert (existsb is_uncompress t0 = false) by quiet Hq.

Ltac simpl_trace :=
  unfold occurs in *;
  repeat match goal with
         | |- context [ends_with ?p (cat ?a (?e :: ?t))] =>
           rewrite (ends_with_cat p a e t)
         | H : existsb ?p ?a = false |- context [existsb ?p (cat ?a ?t)] =>
           rewrite (existsb_cat_quiet p a t H)
         | H : existsb ?p ?a = false |- context [count ?p (cat ?a ?t)] =>
           rewrite (count_cat_quiet p a t H)
         | H : existsb ?p ?a = false |- context [filter ?p (cat ?a ?t)] =>
           rewrite (filter_cat_quiet p a t H)
         | H : existsb ?p ?a = false |- context [existsb ?p ?a] => rewrite H
         | H : existsb ?p ?a = false |- context [count ?p ?a] =>
           rewrite (count_quiet p a H)
         | H : count ?p ?a = _ |- context [count ?p (cat ?a ?t)] =>
           rewrite (count_cat p a t), H
         | H : count ?p ?a = _ |- context [count ?p ?a] => rewrite H
         | |- context [count ?p (cat ?a ?t)] => rewrite (count_cat p a t)
         end;
  cbn [existsb filter List.length count ends_with app orb andb negb head_events
       final_events is_error is_done is_read_all is_create is_wrap
       is_read_first_entry is_restore is_read_entry is_parse is_extract
       is_fallback is_uncompress is_copy is_request is_acquire is_close
       is_pipeline Handle_eqb Nat.eqb Nat.add Nat.leb].

Ltac settle :=
  repeat split; intros; try discriminate; try lia; try congruence; auto.

Ltac find_event :=
  unfold cat;
  repeat first [ left; reflexivity | apply in_or_app; right | right ].

Ltac sort_out := intuition (try discriminate; try lia; try congruence).

(** X6.  The process ends with status 0 or 1, and with 1 exactly when
    the last thing it did was to log an error: every fatal exit is
    reported, by one error line, and no error is logged by a run that
    goes on. *)
Theorem fatal_exit_is_reported w :
  (status w = 0 \/ status w = 1) /\
  (status w = 1 <-> ends_with is_error (trace w) = true) /\
  (status w = 1 <-> count is_error (trace w) = 1%nat) /\
  (count is_error (trace w) <= 1)%nat.
Proof.
  stages w Hrun.
  - use_run Hrun. cbn. settle.
  - use_run Hrun. cbn. settle.
  - apply existsb_count0 in Herr.
    through_pipeline Hrun; simpl_trace; settle.
  - use_run Hrun. rewrite Hends, Herr. settle.
Qed.

(** X7.  "Done" is logged exactly by the runs that entered the
    extraction and end with status 0, and then the archive was really
    extracted: by the streaming extraction, or else by the tar tool on
    the file of the fallback. *)
Theorem done_only_after_extraction w :
  (occurs is_done (trace w) <-> occurs is_extract (trace w) /\ status w = 0) /\
  (occurs is_done (trace w) ->
   streamExtract w = None \/
   exists pth, In (EvUncompressArchive pth) (trace w) /\ tarExtract w pth = None).
Proof.
  stages w Hrun.
  - use_run Hrun. cbn. sort_out.
  - use_run Hrun. cbn. sort_out.
  - quiet_facts Hq pre.
    through_pipeline Hrun; simpl_trace;
      (split;
       [ sort_out
       | intros Hd; try discriminate Hd;
         first [ left; reflexivity
               | right; eexists; (split; [find_event | eassumption]) ] ]).
  - use_run Hrun. assert (existsb is_extract pre = false) by quiet Hq.
    simpl_trace. sort_out.
Qed.

(** X8.  No step of the pipeline is ever repeated: in every run the
    stream is wrapped, inspected, restored, its first payload read and
    parsed, the stream extracted, the archive downloaded again, copied
    and given to the tar tool at most once each. *)
Theorem pipeline_steps_not_repeated w :
  Forall (fun p => (count p (trace w) <= 1)%nat)
         [is_wrap; is_read_first_entry; is_restore; is_read_entry; is_parse;
          is_extract; is_fallback; is_create; is_copy; is_uncompress].
Proof.
  stages w Hrun.
  - use_run Hrun. repeat constructor.
  - use_run Hrun. repeat constructor.
  - quiet_facts Hq pre.
    through_pipeline Hrun; repeat (apply Forall_cons; [simpl_trace; lia|]);
      apply Forall_nil.
  - use_run Hrun. quiet_facts Hq pre.
    repeat (apply Forall_cons; [simpl_trace; lia|]); apply Forall_nil.
Qed.

(** X9.  When the streaming extraction succeeds nothing is fetched
    again: no fallback download, no file created or written, no tar
    tool, at most the two requests of the look-up and the stream; and
    the run that entered the extraction ends with status 0 and "Done". *)
Theorem streaming_success_no_fallback w :
  streamExtract w = None ->
  existsb is_fallback (trace w) = false /\
  existsb is_create (trace w) = false /\
  existsb is_copy (trace w) = false /\
  existsb is_uncompress (trace w) = false /\
  (count is_request (trace w) <= 2)%nat /\
  (occurs is_extract (trace w) -> status w = 0 /\ occurs is_done (trace w)).
Proof.
  intros Hok.
  stages w Hrun.
  - use_run Hrun. cbn. settle.
  - use_run Hrun. cbn. settle.
  - quiet_facts Hq pre.
    revert Hrun; unfold_pipeline; rewrite Hok; run_paths; intros Hrun;
      use_run Hrun; simpl_trace; settle.
  - use_run Hrun. quiet_facts Hq pre. simpl_trace. settle.
Qed.

Lemma streaming_success_no_fallback_witness :
  existsb is_fallback (trace Samples.matching) = false /\
  status Samples.matching = 0.
Proof.
  destruct (streaming_success_no_fallback Samples.matching eq_refl)
    as (Hfb & _ & _ & _ & _ & Hdone).
  split; [exact Hfb|]. apply Hdone. vm_compute. reflexivity.
Defined.

(** X10.  A run on a [file://] source never uses the network and never
    writes the staging file: no request is sent and nothing is created
    or copied, whatever fails; the pipeline is entered exactly when the
    file at the path after the prefix can be opened, and the run is
    fatal when it cannot. *)
Theorem local_source_stays_local w conf :
  stepconf_Parse w = inr conf ->
  strings.HasPrefix (CacheAPIURL conf) "file://" = true ->
  existsb is_request (trace w) = false /\
  existsb is_create (trace w) = false /\
  existsb is_copy (trace w) = false /\
  (occurs is_wrap (trace w) <->
   fs_Open w (strings.TrimPrefix (CacheAPIURL conf) "file://") = None) /\
  (fs_Open w (strings.TrimPrefix (CacheAPIURL conf) "file://") <> None ->
   status w = 1).
Proof.
  intros Hc Hlocal.
  stages_at w conf Hc Hrun.
  - destruct (CacheAPIURL conf); discriminate.
  - rewrite Hlocal in Hsrc. destruct Hsrc as (-> & -> & Hopen).
    specialize (Hloc Hlocal). quiet_facts Hq pre.
    revert Hrun; unfold_pipeline; rewrite Hlocal; run_paths; intros Hrun;
      use_run Hrun; simpl_trace; sort_out.
  - specialize (Hloc Hlocal). specialize (Hopen Hlocal). quiet_facts Hq pre.
    use_run Hrun. simpl_trace. sort_out.
Qed.

Lemma local_source_stays_local_witness :
  existsb is_request (trace Samples.corrupt) = false /\
  occurs is_wrap (trace Samples.corrupt).
Proof.
  destruct (local_source_stays_local Samples.corrupt
              (Samples.local_conf " osx-xcode ") eq_refl eq_refl)
    as (Hreq & _ & _ & Hwrap & _).
  split; [exact Hreq|]. apply Hwrap. reflexivity.
Defined.

(** X11.  The archive is only ever fetched from the URL that the
    look-up answered: the first request of a run is the look-up at the
    cache API URL, under the timeout; any other request is the second or
    third of the run, is sent without timeout, and goes to a URL for
    which the look-up succeeded, so to the non-empty [download_url] of a
    2xx answer.  A run sends at most three requests. *)
Theorem downloads_only_from_looked_up_url w conf :
  stepconf_Parse w = inr conf ->
  Forall (request_provenance w conf) (trace w) /\
  (count is_request (trace w) <= 3)%nat.
Proof.
  intros Hc.
  stages_at w conf Hc Hrun.
  - use_run Hrun. split; [repeat constructor | cbn; lia].
  - destruct (strings.HasPrefix (CacheAPIURL conf) "file://") eqn:Hlocal.
    + destruct Hsrc as (-> & -> & Hopen). specialize (Hloc eq_refl).
      revert Hrun; unfold_pipeline; rewrite Hlocal; run_paths; intros Hrun;
        use_run Hrun;
        (split; [apply Forall_cat; [exact Hprov | repeat constructor]
                | simpl_trace; lia]).
    + destruct Hsrc as (-> & Hlook & resp & Hnew & Huri & _).
      revert Hrun; unfold_pipeline; rewrite Hnew, Huri; run_paths; intros Hrun;
        use_run Hrun;
        (split;
         [ apply Forall_cat;
           [ exact Hprov
           | repeat (apply Forall_cons;
                     [cbn;
                      first [exact I
                            | right; split; [auto | split; [reflexivity | exact Hlook]]]
                     |]);
             apply Forall_nil ]
         | simpl_trace; lia ]).
  - use_run Hrun. split; [exact Hprov | lia].
Qed.

Lemma downloads_only_from_looked_up_url_witness :
  Forall (request_provenance Samples.remote_truncated
                             (Samples.remote_conf "osx-xcode"))
         (trace Samples.remote_truncated) /\
  (count is_request (trace Samples.remote_truncated) <= 3)%nat.
Proof.
  exact (downloads_only_from_looked_up_url Samples.remote_truncated
           (Samples.remote_conf "osx-xcode") eq_refl).
Defined.

(** X12.  What the pipeline does once it has the stream does not depend
    on where the stream came from: two runs that reach the pipeline with
    the same stack id configured, the same first entry and payload, and
    a streaming extraction that succeeds, go through the same events of
    the pipeline and end with the same status, be the source a local
    file or a download. *)
Theorem pipeline_independent_of_source w1 w2 conf1 conf2 :
  stepconf_Parse w1 = inr conf1 ->
  stepconf_Parse w2 = inr conf2 ->
  occurs is_wrap (trace w1) ->
  occurs is_wrap (trace w2) ->
  StackID conf1 = StackID conf2 ->
  firstEntry w1 = firstEntry w2 ->
  entryPayload w1 = entryPayload w2 ->
  streamExtract w1 = None ->
  streamExtract w2 = None ->
  filter is_pipeline (trace w1) = filter is_pipeline (trace w2) /\
  status w1 = status w2.
Proof.
  intros Hc1 Hc2 Hw1 Hw2 Hstack Hfirst Hpay Hx1 Hx2.
  stages_at w1 conf1 Hc1 Hrun1;
    try (exfalso; use_run Hrun1; unfold occurs in Hw1;
         first [ discriminate Hw1
               | apply quiet_no_stream in Hq; congruence ]).
  stages_at w2 conf2 Hc2 Hrun2;
    try (exfalso; use_run Hrun2; unfold occurs in Hw2;
         first [ discriminate Hw2
               | apply quiet_no_stream in Hq0; congruence ]).
  clear Hw1 Hw2.
  revert Hrun1 Hrun2. unfold_pipeline.
  rewrite Hstack, Hfirst, Hpay, Hx1, Hx2.
  run_paths; intros Hrun1 Hrun2; use_run Hrun1; use_run Hrun2;
    simpl_trace; split; reflexivity.
Qed.

Lemma pipeline_independent_of_source_witness :
  filter is_pipeline (trace Samples.matching) =
  filter is_pipeline
         (trace (Samples.world (Samples.remote_conf " osx-xcode ") "osx-xcode")) /\
  status Samples.matching =
  status (Samples.world (Samples.remote_conf " osx-xcode ") "osx-xcode").
Proof.
  assert (H1 : occurs is_wrap (trace Samples.matching)) by (vm_compute; reflexivity).
  assert (H2 : occurs is_wrap
                 (trace (Samples.world (Samples.remote_conf " osx-xcode ") "osx-xcode")))
    by (vm_compute; reflexivity).
  exact (pipeline_independent_of_source Samples.matching
           (Samples.world (Samples.remote_conf " osx-xcode ") "osx-xcode")
           (Samples.local_conf " osx-xcode ") (Samples.remote_conf " osx-xcode ")
           eq_refl eq_refl H1 H2 eq_refl eq_refl eq_refl eq_refl eq_refl).
Defined.

(* ================================================================= *)
(** ** Round trips through [encoding/json] *)

Lemma plain_char_facts c :
  plain_char c = true ->
  Ascii.eqb c dquote = false /\ Ascii.eqb c backslash = false /\
  (byte_of c <? 32) = false /\ (byte_of c <? utf8.RuneSelf) = true.
Proof.
  unfold plain_char, utf8.RuneSelf. intros H.
  apply andb_true_iff in H as [H Hb]. apply andb_true_iff in H as [H Hq].
  apply andb_true_iff in H as [Hlo Hhi].
  apply negb_true_iff in Hb, Hq. apply Z.leb_le in Hlo. apply Z.ltb_lt in Hhi.
  repeat split; auto; [apply Z.ltb_ge | apply Z.ltb_lt]; lia.
Qed.

Lemma scan_string_plain s rest :
  plain s = true ->
  json.scan_string (s ++ String dquote rest) = Some (s, rest).
Proof.
  induction s as [|c s IH]; intros H.
  - reflexivity.
  - cbn [plain] in H. apply andb_true_iff in H as [Hc Hs].
    destruct (plain_char_facts c Hc) as (Hq & Hb & Hlo & _).
    cbn [append json.scan_string]. rewrite Hq, Hb, Hlo, (IH Hs). reflexivity.
Qed.

Lemma unquote_plain s : plain s = true -> json.unquote s = Some s.
Proof.
  induction s as [|c s IH]; intros H; [reflexivity|].
  cbn [plain] in H. apply andb_true_iff in H as [Hc Hs].
  destruct (plain_char_facts c Hc) as (Hq & Hb & Hlo & Hhi).
  cbn [json.unquote]. rewrite Hq, Hb, Hlo, Hhi, (IH Hs). reflexivity.
Qed.

Lemma selects_plain_refl key : json.selects key key = true.
Proof. unfold json.selects. now rewrite String.eqb_refl. Qed.

Lemma append_quote a c r : (a ++ String c "") ++ r = a ++ String c r.
Proof. induction a as [|x a IH]; cbn; [reflexivity | now rewrite IH]. Qed.

Lemma length_append a b :
  String.length (a ++ b) = (String.length a + String.length b)%nat.
Proof. induction a as [|x a IH]; cbn; [reflexivity | now rewrite IH]. Qed.

Lemma members_one_member f key val :
  plain key = true -> plain val = true ->
  json.members (S (S f)) (quoted key ++ ":" ++ quoted val ++ "}") [] =
  json.Parsed (json.Object [(key, json.Str val)]) "".
Proof.
  intros Hk Hv. unfold quoted. cbn [append]. rewrite !append_quote.
  remember (val ++ String dquote "}") as y eqn:Hy.
  remember (key ++ String dquote (String ":" (String dquote y))) as x eqn:Hx.
  cbn. subst x. rewrite (scan_string_plain key _ Hk), (unquote_plain key Hk).
  cbn. subst y. rewrite (scan_string_plain val _ Hv). unfold json.mk_string.
  rewrite (unquote_plain val Hv). reflexivity.
Qed.

Lemma parse_one_member key val :
  plain key = true -> plain val = true ->
  json.parse (one_member key val) = Some (json.Object [(key, json.Str val)]).
Proof.
  intros Hk Hv. unfold json.parse, one_member.
  remember (quoted key ++ ":" ++ quoted val ++ "}") as m eqn:Hm.
  change ("{" ++ m) with (String "{" m).
  assert (Hfuel : json.budget (String "{" m) = S (S (S (2 * String.length m + 1)))).
  { unfold json.budget. cbn [String.length]. lia. }
  rewrite Hfuel.
  assert (Hstart : exists t, m = String dquote t) by (subst m; unfold quoted; cbn; eauto).
  destruct Hstart as [t Ht].
  assert (Hmem : json.members (S (S (2 * String.length m + 1))) m [] =
                 json.Parsed (json.Object [(key, json.Str val)]) "")
    by (subst m; now apply members_one_member).
  remember (S (S (2 * String.length m + 1))) as fuel eqn:Hf.
  rewrite Ht in *.
  change (json.value (S fuel) (String "{" (String dquote t)))
    with (json.members fuel (String dquote t) []).
  rewrite Hmem. reflexivity.
Qed.

(** The object [{"key":"val"}], for plain [key] and [val], is read back
    as [val] by [json.Unmarshal] into the struct whose field is named
    [key]. *)
Lemma Unmarshal_one_member key val field :
  plain key = true -> plain val = true ->
  json.Unmarshal (one_member key val) key field = (val, None).
Proof.
  intros Hk Hv. unfold json.Unmarshal. rewrite (parse_one_member key val Hk Hv).
  cbn. now rewrite selects_plain_refl.
Qed.

(** X13.  [parseStackID] reads back the stack id from the metadata that
    holds it under [stack_id]: any id of printable ASCII without quote
    and backslash is returned unchanged, without error. *)
Theorem parseStackID_round_trip s :
  plain s = true ->
  parseStackID (one_member "stack_id" s) = (s, None).
Proof.
  intros Hs. unfold parseStackID.
  now rewrite (Unmarshal_one_member "stack_id" s "" eq_refl Hs).
Qed.

Lemma parseStackID_round_trip_witness :
  parseStackID (one_member "stack_id" "osx-xcode-12.5.x") = ("osx-xcode-12.5.x", None).
Proof. apply (parseStackID_round_trip "osx-xcode-12.5.x"). reflexivity. Defined.

(** X14.  A look-up answered with a status from 200 to 202 and the body
    [{"download_url":"d"}], for a non-empty [d] of printable ASCII
    without quote and backslash, returns [d], after one request. *)
Theorem lookup_round_trip w u n resp d :
  http_NewRequest w u = None ->
  strings.HasPrefix u "file://" = false ->
  roundTrip w n u = Ok resp ->
  BodyRead resp = (one_member "download_url" d, None) ->
  200 <= StatusCode resp <= 202 ->
  plain d = true -> d <> "" ->
  exists t, getCacheDownloadURL w u n = (t, S n, Return (Ok d)) /\
            count is_request t = 1%nat.
Proof.
  intros Hnew Hscheme Hrt Hread Hst Hplain Hd.
  apply status_in_range in Hst. apply String.eqb_neq in Hd.
  unfold_helpers. rewrite Hnew.
  cbv beta iota zeta delta [bind ret emit next_request].
  rewrite Hscheme, Hrt.
  cbv beta iota zeta delta [bind ret emit next_request].
  rewrite Hread. cbv beta iota zeta.
  rewrite Hst, (Unmarshal_one_member "download_url" d "" eq_refl Hplain), Hd.
  destruct (BodyClose resp); cbv beta iota zeta delta [bind ret emit logf app];
    eexists; (split; [reflexivity|]); reflexivity.
Qed.

Lemma lookup_round_trip_witness :
  exists t,
    getCacheDownloadURL (Samples.world (Samples.remote_conf "osx-xcode") "osx-xcode")
                        "https://api.example/cache" 0%nat =
    (t, 1%nat, Return (Ok "https://cache.example/archive.tar.gz")) /\
    count is_request t = 1%nat.
Proof.
  apply (lookup_round_trip
           (Samples.world (Samples.remote_conf "osx-xcode") "osx-xcode")
           "https://api.example/cache" 0%nat
           (Samples.ok_response (Samples.lookup_answer "https://cache.example/archive.tar.gz"))
           "https://cache.example/archive.tar.gz");
    try reflexivity; [cbn; lia | discriminate].
Defined.

(* ================================================================= *)
(** ** [strings.TrimSpace] on ASCII blanks *)

Lemma Decode_ascii c t :
  (byte_of c <? utf8.RuneSelf) = true ->
  utf8.DecodeRuneInString (String c t) = (byte_of c, 1%nat).
Proof. intros H. unfold utf8.DecodeRuneInString. now rewrite H. Qed.

Lemma TrimLeftSpace_blanks b r :
  all_chars ascii_blank b = true ->
  strings.TrimLeftSpace (b ++ r) = strings.TrimLeftSpace r.
Proof.
  induction b as [|c b IH]; intros H; [reflexivity|].
  cbn [all_chars] in H. apply andb_true_iff in H as [Hc Hb].
  apply andb_true_iff in Hc as [Hlo Hsp].
  cbn [append strings.TrimLeftSpace]. rewrite (Decode_ascii c _ Hlo), Hsp.
  now apply IH.
Qed.

Lemma TrimLeftSpace_solid c t :
  ascii_solid c = true ->
  strings.TrimLeftSpace (String c t) = String c t.
Proof.
  intros H. apply andb_true_iff in H as [Hlo Hsp]. apply negb_true_iff in Hsp.
  cbn [strings.TrimLeftSpace]. now rewrite (Decode_ascii c _ Hlo), Hsp.
Qed.

Lemma get_at_length y c z : String.get (String.length y) (y ++ String c z) = Some c.
Proof. induction y as [|x y IH]; [reflexivity | exact IH]. Qed.

Lemma take_past a j b :
  take (String.length a + j) (a ++ b) = a ++ take j b.
Proof. induction a as [|x a IH]; cbn; [reflexivity | now rewrite IH]. Qed.

Lemma take_step p j b :
  (j < String.length b)%nat -> all_chars p b = true ->
  exists x, take (S j) b = take j b ++ String x "" /\ p x = true.
Proof.
  revert j. induction b as [|c b IH]; intros j Hj Hb; [cbn in Hj; lia|].
  cbn [all_chars] in Hb. apply andb_true_iff in Hb as [Hc Hb].
  destruct j as [|j].
  - exists c. destruct b; auto.
  - cbn in Hj. destruct (IH j ltac:(lia) Hb) as (x & Hx & Hp).
    exists x. split; [|exact Hp].
    change (take (S (S j)) (String c b)) with (String c (take (S j) b)).
    now rewrite Hx.
Qed.

Lemma DecodeLast_ascii y c :
  (byte_of c <? utf8.RuneSelf) = true ->
  utf8.DecodeLastRuneInString (y ++ String c "") = (byte_of c, 1%nat).
Proof.
  intros H. unfold utf8.DecodeLastRuneInString.
  rewrite length_append. cbn [String.length].
  replace (Z.of_nat (String.length y + 1) =? 0) with false
    by (symmetry; apply Z.eqb_neq; lia).
  replace (Z.to_nat (Z.of_nat (String.length y + 1) - 1)) with (String.length y) by lia.
  now rewrite get_at_length, H.
Qed.

Lemma last_split t c : exists y, String c t = y ++ String (last_char t c) "".
Proof.
  revert c. induction t as [|x t IH]; intros c.
  - now exists "".
  - destruct (IH x) as [y Hy]. exists (String c y). cbn [last_char append].
    now rewrite <- Hy.
Qed.

Lemma lastIndexNotSpace_blanks y c b j fuel :
  ascii_solid c = true -> all_chars ascii_blank b = true ->
  (j <= String.length b)%nat -> (j < fuel)%nat ->
  strings.lastIndexNotSpace fuel (y ++ String c b)
                            (Z.of_nat (String.length y + 1 + j)) =
  Z.of_nat (String.length y).
Proof.
  intros Hc Hb. apply andb_true_iff in Hc as [Hlo Hsp].
  revert fuel. induction j as [|j IH]; intros fuel Hj Hfuel;
    (destruct fuel as [|k]; [lia|]); cbn [strings.lastIndexNotSpace].
  - replace (Z.of_nat (String.length y + 1 + 0) <=? 0) with false
      by (symmetry; apply Z.leb_gt; lia).
    rewrite Nat2Z.id, Nat.add_0_r, take_past. cbn [take].
    replace (take 0 b) with "" by (destruct b; reflexivity).
    rewrite (DecodeLast_ascii y c Hlo), Hsp. lia.
  - replace (Z.of_nat (String.length y + 1 + S j) <=? 0) with false
      by (symmetry; apply Z.leb_gt; lia).
    rewrite Nat2Z.id.
    replace (String.length y + 1 + S j)%nat with (String.length y + S (S j))%nat by lia.
    rewrite take_past.
    change (take (S (S j)) (String c b)) with (String c (take (S j) b)).
    destruct (take_step ascii_blank j b ltac:(lia) Hb) as (x & -> & Hx).
    apply andb_true_iff in Hx as [Hxlo Hxsp].
    replace (y ++ String c (take j b ++ String x ""))
      with ((y ++ String c (take j b)) ++ String x "").
    2:{ clear. induction y as [|a y IHy]; cbn; [|now rewrite IHy].
        f_equal. }
    rewrite (DecodeLast_ascii _ x Hxlo), Hxsp. cbn [negb].
    replace (Z.of_nat (String.length y + S (S j)) - Z.of_nat 1)
      with (Z.of_nat (String.length y + 1 + j)) by lia.
    apply IH; lia.
Qed.

Lemma TrimRightSpace_blanks y c b :
  ascii_solid c = true -> all_chars ascii_blank b = true ->
  strings.TrimRightSpace (y ++ String c b) = y ++ String c "".
Proof.
  intros Hc Hb. unfold strings.TrimRightSpace.
  assert (Hlen : String.length (y ++ String c b) =
                 (String.length y + 1 + String.length b)%nat)
    by (rewrite length_append; cbn [String.length]; lia).
  assert (Hi : strings.lastIndexNotSpace (String.length (y ++ String c b))
                 (y ++ String c b) (Z.of_nat (String.length (y ++ String c b))) =
               Z.of_nat (String.length y)).
  { rewrite Hlen at 2.
    apply (lastIndexNotSpace_blanks y c b _ _ Hc Hb (le_n _)). rewrite Hlen. lia. }
  rewrite !Hi. clear Hi Hlen.
  apply andb_true_iff in Hc as [Hlo Hsp].
  rewrite Nat2Z.id, get_at_length.
  replace (utf8.RuneSelf <=? byte_of c) with false
    by (symmetry; apply Z.leb_gt; now apply Z.ltb_lt).
  rewrite andb_false_r.
  replace (Z.to_nat (Z.of_nat (String.length y) + 1)) with (String.length y + 1)%nat by lia.
  rewrite take_past. cbn [take]. now destruct b.
Qed.

(** X15.  [strings.TrimSpace] removes the ASCII blanks around a text
    that begins and ends with an ASCII character other than space, and
    returns the text unchanged, blanks inside it included. *)
Theorem TrimSpace_strips_ascii_blanks b1 s b2 :
  all_chars ascii_blank b1 = true ->
  all_chars ascii_blank b2 = true ->
  solid_ends s = true ->
  strings.TrimSpace (b1 ++ s ++ b2) = s.
Proof.
  intros H1 H2 Hs. unfold strings.TrimSpace.
  rewrite (TrimLeftSpace_blanks b1 _ H1).
  destruct s as [|c t].
  - cbn [append]. replace b2 with (b2 ++ "") by (clear; induction b2; cbn; congruence).
    now rewrite (TrimLeftSpace_blanks b2 "" H2).
  - cbn [solid_ends] in Hs. apply andb_true_iff in Hs as [Hc Hl].
    cbn [append]. rewrite (TrimLeftSpace_solid c _ Hc).
    destruct (last_split t c) as [y Hy].
    change (String c (t ++ b2)) with (String c t ++ b2).
    rewrite Hy, append_quote. now apply TrimRightSpace_blanks.
Qed.

Lemma TrimSpace_strips_ascii_blanks_witness :
  strings.TrimSpace ("  " ++ "osx xcode" ++ " ") = "osx xcode".
Proof.
  apply (TrimSpace_strips_ascii_blanks "  " "osx xcode" " "); reflexivity.
Defined.

(* ================================================================= *)
(** ** [filepath.Base]: the paths with a given last element *)

Section BaseFacts.
Import filepath.

Lemma sep_eq c : IsPathSeparator c = true -> c = "/"%char.
Proof. apply Ascii.eqb_eq. Qed.

Lemma drop_seps_repeat k l :
  drop_seps (repeat "/"%char k ++ l) = drop_seps l.
Proof. induction k as [|k IH]; [reflexivity | exact IH]. Qed.

Lemma drop_seps_spec l :
  exists k, l = (repeat "/"%char k ++ drop_seps l)%list.
Proof.
  induction l as [|c l [k IH]]; [now exists 0%nat|].
  cbn [drop_seps]. destruct (IsPathSeparator c) eqn:Hc.
  - apply sep_eq in Hc as ->. exists (S k). cbn. now rewrite <- IH.
  - now exists 0%nat.
Qed.

Lemma drop_seps_solid c l :
  IsPathSeparator c = false -> drop_seps (c :: l) = c :: l.
Proof. intros H. cbn. now rewrite H. Qed.

Lemma until_sep_app a b :
  existsb IsPathSeparator a = false ->
  until_sep (a ++ b) = (a ++ until_sep b)%list.
Proof.
  induction a as [|c a IH]; intros H; [reflexivity|].
  cbn in H. apply orb_false_iff in H as [Hc Ha].
  cbn. now rewrite Hc, (IH Ha).
Qed.

Lemma until_sep_spec l :
  exists r, l = (until_sep l ++ r)%list /\
            existsb IsPathSeparator (until_sep l) = false /\
            (r = [] \/ exists r', r = "/"%char :: r').
Proof.
  induction l as [|c l (r & Hl & Hno & Hr)]; [exists []; auto|].
  cbn [until_sep]. destruct (IsPathSeparator c) eqn:Hc.
  - apply sep_eq in Hc as ->. exists ("/"%char :: l). eauto.
  - exists r. cbn. rewrite Hc, Hno, <- Hl. auto.
Qed.

Lemma rev_repeat (x : ascii) k : rev (repeat x k) = repeat x k.
Proof.
  induction k as [|k IH]; [reflexivity|].
  cbn. rewrite IH. symmetry. apply repeat_cons.
Qed.

Lemma string_of_list_ascii_app a b :
  string_of_list_ascii (a ++ b) = string_of_list_ascii a ++ string_of_list_ascii b.
Proof. induction a as [|c a IH]; cbn; [reflexivity | now rewrite IH]. Qed.

Lemma list_of_slashes k : list_ascii_of_string (slashes k) = repeat "/"%char k.
Proof. induction k as [|k IH]; cbn; [reflexivity | now rewrite IH]. Qed.

Lemma not_empty_eqb s : s <> "" -> String.eqb s "" = false.
Proof. intros H. now apply String.eqb_neq. Qed.

Lemma existsb_reversed (f : ascii -> bool) l : existsb f (rev l) = existsb f l.
Proof.
  induction l as [|c l IH]; [reflexivity|].
  cbn. rewrite existsb_app, IH. cbn. rewrite orb_false_r. apply orb_comm.
Qed.

Lemma rev_name_solid name :
  name <> "" -> no_sep name = true ->
  exists c t, rev (list_ascii_of_string name) = c :: t /\ IsPathSeparator c = false.
Proof.
  intros Hne Hno. unfold no_sep in Hno. apply negb_true_iff in Hno.
  rewrite <- existsb_reversed in Hno.
  destruct (rev (list_ascii_of_string name)) as [|c t] eqn:Hrev.
  - apply (f_equal (@rev ascii)) in Hrev. rewrite rev_involutive in Hrev.
    destruct name; [congruence | discriminate].
  - cbn in Hno. apply orb_false_iff in Hno as [Hc _]. eauto.
Qed.

End BaseFacts.

(** X16.  [filepath.Base] of a path is a given name, one without slash
    and other than the dot, exactly for the paths that end in that name,
    at the top or right below a slash, with any number of slashes after
    it. *)
Theorem Base_names name p :
  name <> "" -> name <> "." -> no_sep name = true ->
  filepath.Base p = name <-> names p name.
Proof.
  intros Hne Hdot Hno. unfold names, filepath.Base. split.
  - destruct (String.eqb p "") eqn:Hp; [intros H; now symmetry in H|].
    destruct (drop_seps_spec (rev (list_ascii_of_string p))) as [k Hk].
    destruct (until_sep_spec (filepath.drop_seps (rev (list_ascii_of_string p))))
      as (r & Hl & _ & Hr).
    remember (filepath.until_sep (filepath.drop_seps (rev (list_ascii_of_string p)))) as u.
    destruct (String.eqb (string_of_list_ascii (rev u)) "") eqn:Hlast.
    + intros <-. discriminate Hno.
    + intros Hu. rewrite Hl in Hk.
      apply (f_equal (@rev ascii)) in Hk.
      rewrite rev_involutive, !rev_app_distr, rev_repeat in Hk.
      apply (f_equal string_of_list_ascii) in Hk.
      rewrite string_of_list_ascii_of_string, <- app_assoc,
        !string_of_list_ascii_app, Hu, <- list_of_slashes,
        string_of_list_ascii_of_string in Hk.
      exists (string_of_list_ascii (rev r)), k. split; [exact Hk|].
      destruct Hr as [-> | [r' ->]]; [now left | right].
      exists (string_of_list_ascii (rev r')). cbn [rev].
      now rewrite string_of_list_ascii_app.
  - intros (dir & k & -> & Hdir).
    replace (String.eqb (dir ++ name ++ slashes k) "") with false.
    2:{ symmetry. apply String.eqb_neq. destruct dir; [|discriminate].
        destruct name; [congruence | discriminate]. }
    rewrite !list_ascii_of_string_app, list_of_slashes, !rev_app_distr, rev_repeat,
      <- app_assoc, drop_seps_repeat.
    destruct (rev_name_solid name Hne Hno) as (c & t & Hrev & Hc).
    assert (Hsolid : existsb filepath.IsPathSeparator (rev (list_ascii_of_string name)) = false).
    { rewrite existsb_reversed. unfold no_sep in Hno. now apply negb_true_iff in Hno. }
    assert (Hhead : filepath.until_sep (rev (list_ascii_of_string dir)) = []).
    { destruct Hdir as [-> | [d ->]]; [reflexivity|].
      now rewrite list_ascii_of_string_app, rev_app_distr. }
    assert (Hu : filepath.until_sep
                   (filepath.drop_seps (rev (list_ascii_of_string name) ++
                                        rev (list_ascii_of_string dir))) =
                 rev (list_ascii_of_string name)).
    { rewrite Hrev. cbn [app]. rewrite (drop_seps_solid c _ Hc).
      change (c :: (t ++ rev (list_ascii_of_string dir))%list)
        with ((c :: t) ++ rev (list_ascii_of_string dir))%list.
      rewrite <- Hrev, (until_sep_app _ _ Hsolid), Hhead. apply app_nil_r. }
    rewrite !Hu, rev_involutive, string_of_list_ascii_of_string.
    now rewrite (not_empty_eqb name Hne).
Qed.

Lemma Base_names_witness :
  filepath.Base "cache/archive_info.json/" = metadata_name <->
  names "cache/archive_info.json/" metadata_name.
Proof.
  apply (Base_names metadata_name "cache/archive_info.json/");
    [discriminate | discriminate | reflexivity].
Defined.
